(** * eth_abi.registry: the predicate-based coder registry

    A shallow embedding of [src/eth_abi/registry.py].

    - Python objects carry an identity ([address]): [is] compares identities,
      [==] and dict lookup go through [__eq__].
    - Python dicts are insertion-ordered association lists ([Dict]).
    - Methods are computations in a small monad [M S A] that threads the
      mutated object [S], may raise a Python exception, and reports the calls
      it makes to the collaborators (predicates, [grammar.parse],
      [from_type_str]) as a list of [event]s.
    - [grammar.parse], the builtin [repr] and the coder classes'
      [from_type_str] live outside this module: they are Section variables. *)

From Stdlib Require Import List String Ascii Bool Arith Lia DecimalString.
Import ListNotations.
Open Scope string_scope.
Open Scope list_scope.

Set Implicit Arguments.
Set Warnings "-register-all".

(** ** Python dicts *)

Module Dict.
Section Ops.
Variables K V : Type.
Variable eqb : K -> K -> bool.

(** [d[k]]; [None] stands for [KeyError]. *)
Fixpoint get (k : K) (d : list (K * V)) : option V :=
  match d with
  | [] => None
  | (k', v) :: rest => if eqb k' k then Some v else get k rest
  end.

(** [k in d] *)
Definition mem (k : K) (d : list (K * V)) : bool :=
  match get k d with Some _ => true | None => false end.

(** [d[k] = v]: an existing entry keeps its key object and its position,
    a new key goes last. *)
Fixpoint set (k : K) (v : V) (d : list (K * V)) : list (K * V) :=
  match d with
  | [] => [(k, v)]
  | (k', v') :: rest =>
      if eqb k' k then (k', v) :: rest else (k', v') :: set k v rest
  end.

(** [del d[k]]; [None] stands for [KeyError]. *)
Fixpoint del (k : K) (d : list (K * V)) : option (list (K * V)) :=
  match d with
  | [] => None
  | (k', v') :: rest =>
      if eqb k' k then Some rest
      else match del k rest with
           | Some rest' => Some ((k', v') :: rest')
           | None => None
           end
  end.
End Ops.
End Dict.

(** ** Objects *)

Definition address := nat.

(** Calls into the collaborators, in the order they happen. *)
Inductive event : Type :=
| EvCall (predicate : address) (type_str : string)
| EvParse (type_str : string)
| EvFromTypeStr (cls : address) (type_str : string).

(** Modelled from the spec: the structured type that [grammar.parse]
    returns. [grammar.BasicType] and [grammar.TupleType] are declared in the
    grammar module, outside this file; the spec gives a basic type a base
    name, an optional numeric sub-qualifier and an optional array-dimension
    list, and a tuple type its ordered component types. *)
Inductive ABIType : Type :=
| BasicType (base : string) (sub : option nat)
            (arrlist : option (list (option nat)))
| TupleType (components : list ABIType)
            (arrlist : option (list (option nat))).

(** The callables used as lookups: the two [Predicate] subclasses and plain
    functions ([has_arrlist], [is_tuple_type], user lambdas). *)
Inductive callable : Type :=
| Equals (value : string)
| BaseEquals (base : string) (with_sub : option bool)
| Function (body : string -> list event * bool).

Record Predicate : Type := Pred { id : address; code : callable }.

(** Registered values and resolved coders. [CoderClass] is a value [c] with
    [isinstance(c, type) and issubclass(c, BaseCoder)], [CoderInstance] an
    object that [from_type_str] built, [PlainCallable] any other value. *)
Inductive pyobject : Type :=
| PlainCallable (at_ : address)
| CoderClass (at_ : address)
| CoderInstance (at_ : address) (cls : address) (type_str : string).

Inductive dictkey : Type :=
| PredKey (p : Predicate)
| StrKey (s : string).

Inductive exn : Type :=
| ValueError (msg : string)
| KeyError (msg : string)
| KeyErrorRaw (key : dictkey)
| TypeError (msg : string)
| ParseError (type_str : string)
| RecursionError
| CoderError (what : nat).

Definition option_eqb {A : Type} (eqb : A -> A -> bool) (x y : option A) : bool :=
  match x, y with
  | Some a, Some b => eqb a b
  | None, None => true
  | _, _ => false
  end.

(** [p is q] *)
Definition py_is (p q : Predicate) : bool := Nat.eqb (id p) (id q).

(** [Predicate.__eq__]: same class and equal slots; plain functions compare
    by identity. *)
Definition py_eq (p q : Predicate) : bool :=
  match code p, code q with
  | Equals v, Equals w => String.eqb v w
  | BaseEquals b s, BaseEquals b' s' =>
      String.eqb b b' && option_eqb Bool.eqb s s'
  | Function _, Function _ => py_is p q
  | _, _ => false
  end.

(** Key comparison of a dict: identity first, then [__eq__]. *)
Definition key_eqb (stored probe : Predicate) : bool :=
  py_is stored probe || py_eq stored probe.

(** [haystack.startswith(needle)] *)
Fixpoint startswith (needle haystack : string) : bool :=
  match needle with
  | EmptyString => true
  | String c needle' =>
      match haystack with
      | EmptyString => false
      | String c' haystack' => Ascii.eqb c c' && startswith needle' haystack'
      end
  end.

(** [needle in haystack] on strings *)
Fixpoint contains (needle haystack : string) : bool :=
  startswith needle haystack ||
  match haystack with
  | EmptyString => false
  | String _ rest => contains needle rest
  end.

(** [''.join(parts)], used for [str.format]. *)
Definition fmt (parts : list string) : string := String.concat "" parts.

(** ** The method monad *)

Inductive result (A : Type) : Type :=
| Ok (a : A)
| Raise (e : exn).
Arguments Ok {A} a.
Arguments Raise {A} e.

Record outcome (S A : Type) : Type :=
  Out { events : list event; res : result A; state : S }.

Definition M (S A : Type) : Type := S -> outcome S A.

Definition ret {S A : Type} (a : A) : M S A := fun s => Out [] (Ok a) s.

Definition raise {S A : Type} (e : exn) : M S A := fun s => Out [] (Raise e) s.

Definition after {S A : Type} (evs : list event) (o : outcome S A) : outcome S A :=
  Out (evs ++ events o) (res o) (state o).

Definition bind {S A B : Type} (m : M S A) (k : A -> M S B) : M S B :=
  fun s =>
    let o := m s in
    match res o with
    | Ok a => after (events o) (k a (state o))
    | Raise e => Out (events o) (Raise e) (state o)
    end.

Definition get {S : Type} : M S S := fun s => Out [] (Ok s) s.

Definition put {S : Type} (s : S) : M S unit := fun _ => Out [] (Ok tt) s.

Definition emit {S A : Type} (w : list event * A) : M S A :=
  fun s => Out (fst w) (Ok (snd w)) s.

(** [try: body / except <class>: handler / else: orelse]. [handler e] is
    [None] when no except clause catches [e]. *)
Definition try_except {S A B : Type} (body : M S A)
    (handler : exn -> option (M S B)) (orelse : A -> M S B) : M S B :=
  fun s =>
    let o := body s in
    match res o with
    | Ok a => after (events o) (orelse a (state o))
    | Raise e =>
        match handler e with
        | Some h => after (events o) (h (state o))
        | None => Out (events o) (Raise e) (state o)
        end
    end.

Declare Scope py_scope.
Delimit Scope py_scope with py.
Notation "x <- m ;; k" := (bind m (fun x => k))
  (at level 100, m at next level, right associativity) : py_scope.
Notation "m ;; k" := (bind m (fun _ => k))
  (at level 100, right associativity) : py_scope.
Open Scope py_scope.

(** ** [PredicateMapping]: the state *)

Record PredicateMapping : Type :=
  Mapping { _name : string;
            _values : list (Predicate * pyobject);
            _labeled_predicates : list (string * Predicate) }.

Definition set_values (vs : list (Predicate * pyobject)) (self : PredicateMapping) :=
  Mapping (_name self) vs (_labeled_predicates self).

Definition set_labeled_predicates (ls : list (string * Predicate))
    (self : PredicateMapping) :=
  Mapping (_name self) (_values self) ls.

(** [PredicateMapping(name)] *)
Definition PredicateMapping_init (name : string) : PredicateMapping :=
  Mapping name [] [].

(** ** [ABIRegistry]: the state *)

(** One registry instance together with the entries that the two
    [functools.lru_cache] wrappers hold for it, and the next free object
    address. *)
Record ABIRegistry : Type :=
  Registry { _encoders : PredicateMapping;
             _decoders : PredicateMapping;
             get_encoder_cache : list (string * pyobject);
             get_decoder_cache : list (string * pyobject);
             next_address : address }.

(** [ABIRegistry()] *)
Definition ABIRegistry_init (next : address) : ABIRegistry :=
  Registry (PredicateMapping_init "encoder registry")
           (PredicateMapping_init "decoder registry") [] [] next.

(** Which of the two owned mappings (and caches) a method works on. *)
Inductive side : Type := Encoders | Decoders.

Definition mapping (sd : side) (self : ABIRegistry) : PredicateMapping :=
  match sd with Encoders => _encoders self | Decoders => _decoders self end.

Definition set_mapping (sd : side) (pm : PredicateMapping) (self : ABIRegistry)
    : ABIRegistry :=
  match sd with
  | Encoders => Registry pm (_decoders self) (get_encoder_cache self)
                         (get_decoder_cache self) (next_address self)
  | Decoders => Registry (_encoders self) pm (get_encoder_cache self)
                         (get_decoder_cache self) (next_address self)
  end.

Definition cache (sd : side) (self : ABIRegistry) : list (string * pyobject) :=
  match sd with
  | Encoders => get_encoder_cache self
  | Decoders => get_decoder_cache self
  end.

Definition set_cache (sd : side) (c : list (string * pyobject))
    (self : ABIRegistry) : ABIRegistry :=
  match sd with
  | Encoders => Registry (_encoders self) (_decoders self) c
                         (get_decoder_cache self) (next_address self)
  | Decoders => Registry (_encoders self) (_decoders self)
                         (get_encoder_cache self) c (next_address self)
  end.

(** A [PredicateMapping] method run on one of the registry's mappings. *)
Definition on_mapping {A : Type} (sd : side) (m : M PredicateMapping A)
    : M ABIRegistry A :=
  fun self =>
    let o := m (mapping sd self) in
    Out (events o) (res o) (set_mapping sd (state o) self).

(** [Equals(value)]: a new object. *)
Definition new_Equals (value : string) : M ABIRegistry Predicate :=
  fun self =>
    Out [] (Ok (Pred (next_address self) (Equals value)))
        (Registry (_encoders self) (_decoders self) (get_encoder_cache self)
                  (get_decoder_cache self) (S (next_address self))).

(** The [lookup] / [lookup_or_label] argument: a callable, a [str], or
    anything else. *)
Inductive Lookup : Type :=
| Callable (p : Predicate)
| Str (s : string)
| Other (o : address).

(** Addresses of the module-level objects the bootstrap refers to: the two
    predicate functions and the coder classes of [encoding] / [decoding]. *)
Module Static.
Definition has_arrlist : address := 1.
Definition is_tuple_type : address := 2.
Definition UnsignedIntegerEncoder : address := 10.
Definition UnsignedIntegerDecoder : address := 11.
Definition SignedIntegerEncoder : address := 12.
Definition SignedIntegerDecoder : address := 13.
Definition AddressEncoder : address := 14.
Definition AddressDecoder : address := 15.
Definition BooleanEncoder : address := 16.
Definition BooleanDecoder : address := 17.
Definition UnsignedFixedEncoder : address := 18.
Definition UnsignedFixedDecoder : address := 19.
Definition SignedFixedEncoder : address := 20.
Definition SignedFixedDecoder : address := 21.
Definition BytesEncoder : address := 22.
Definition BytesDecoder : address := 23.
Definition ByteStringEncoder : address := 24.
Definition ByteStringDecoder : address := 25.
Definition TextStringEncoder : address := 26.
Definition StringDecoder : address := 27.
Definition BaseArrayEncoder : address := 28.
Definition BaseArrayDecoder : address := 29.
Definition TupleEncoder : address := 30.
Definition TupleDecoder : address := 31.
Definition first_free : address := 40.
End Static.

(** ** Collaborators

    What the module imports and does not define. *)
Class Collaborators : Type :=
  { (** [grammar.parse]; [None] stands for [exceptions.ParseError]. *)
    parse : string -> option ABIType;
    (** The builtin [repr] on a [str], and on an object that does not
        define [__repr__] (a function, an arbitrary value). *)
    repr_str : string -> string;
    repr_default : address -> string;
    (** [cls.from_type_str(type_str, registry)] of the coder classes; the
        third argument is what the class can ask of the registry it is
        handed: [registry.get_encoder] and [registry.get_decoder]. *)
    from_type_str :
      address -> string -> (side -> string -> M ABIRegistry pyobject) ->
      M ABIRegistry pyobject }.

(** ** Predicates and [PredicateMapping] methods *)

Section Registry.
Context {env : Collaborators}.

Definition grammar_parse (type_str : string) : list event * option ABIType :=
  ([EvParse type_str], parse type_str).

Definition is_None {A : Type} (x : option A) : bool :=
  match x with None => true | Some _ => false end.

(** [BaseEquals.__call__] *)
Definition BaseEquals_call (base : string) (with_sub : option bool)
    (type_str : string) : list event * bool :=
  let (evs, parsed) := grammar_parse type_str in
  (evs,
   match parsed with
   | None => false
   | Some (BasicType abi_base abi_sub abi_arrlist) =>
       if negb (is_None abi_arrlist) then false
       else
         match with_sub with
         | Some ws =>
             if ws && is_None abi_sub then false
             else if negb ws && negb (is_None abi_sub) then false
             else String.eqb abi_base base
         | None => String.eqb abi_base base
         end
   | Some (TupleType _ _) => false
   end).

(** [has_arrlist] *)
Definition has_arrlist (type_str : string) : list event * bool :=
  let (evs, parsed) := grammar_parse type_str in
  (evs,
   match parsed with
   | None => false
   | Some (BasicType _ _ abi_arrlist) => negb (is_None abi_arrlist)
   | Some (TupleType _ _) => false
   end).

(** [is_tuple_type] *)
Definition is_tuple_type (type_str : string) : list event * bool :=
  let (evs, parsed) := grammar_parse type_str in
  (evs,
   match parsed with
   | Some (TupleType _ _) => true
   | _ => false
   end).

(** [p(type_str)] *)
Definition call (p : Predicate) (type_str : string) : list event * bool :=
  let (evs, b) :=
    match code p with
    | Equals value => ([], String.eqb value type_str)
    | BaseEquals base with_sub => BaseEquals_call base with_sub type_str
    | Function body => body type_str
    end in
  (EvCall (id p) type_str :: evs, b).

(** [bool(p(type_str))] *)
Definition accepts (p : Predicate) (type_str : string) : bool :=
  snd (call p type_str).

(** [Predicate.__str__] of the subclasses and [Predicate.__repr__]. *)
Definition str (p : Predicate) : string :=
  match code p with
  | Equals value => fmt ["(== "; repr_str value; ")"]
  | BaseEquals base with_sub =>
      fmt ["(base == "; repr_str base;
           match with_sub with
           | None => ""
           | Some true => " and sub is not None"
           | Some false => " and sub is None"
           end; ")"]
  | Function _ => repr_default (id p)
  end.

Definition repr (p : Predicate) : string :=
  match code p with
  | Equals _ => fmt ["<"; "Equals"; " "; str p; ">"]
  | BaseEquals _ _ => fmt ["<"; "BaseEquals"; " "; str p; ">"]
  | Function _ => repr_default (id p)
  end.

(** [PredicateMapping.add] *)
Definition add (predicate : Predicate) (value : pyobject) (label : option string)
    : M PredicateMapping unit :=
  self <- get ;;
  if Dict.mem key_eqb predicate (_values self) then
    raise (ValueError (fmt ["Matcher "; repr predicate; " already exists in ";
                            _name self]))
  else
    match label with
    | Some l =>
        self <- get ;;
        if Dict.mem String.eqb l (_labeled_predicates self) then
          raise (ValueError (fmt ["Matcher "; repr predicate; " with label '"; l;
                                  "' already exists in "; _name self]))
        else
          put (set_labeled_predicates
                 (Dict.set String.eqb l predicate (_labeled_predicates self)) self)
    | None => ret tt
    end ;;
    self <- get ;;
    put (set_values (Dict.set key_eqb predicate value (_values self)) self).

(** The generator of [find]: the items whose predicate accepts [type_str],
    in insertion order. *)
Fixpoint matching (type_str : string) (items : list (Predicate * pyobject))
    : list event * list (Predicate * pyobject) :=
  match items with
  | [] => ([], [])
  | (p, v) :: rest =>
      let (e1, b) := call p type_str in
      let (e2, r) := matching type_str rest in
      (e1 ++ e2, if b then (p, v) :: r else r)
  end.

Definition no_matching_entries (type_str name : string) : string :=
  fmt ["No matching entries for '"; type_str; "' in "; name].

Definition multiple_matching_entries (type_str name : string)
    (predicates : list Predicate) : string :=
  fmt ["Multiple matching entries for '"; type_str; "' in "; name; ": ";
       String.concat ", " (map repr predicates)].

(** [PredicateMapping.find] *)
Definition find (type_str : string) : M PredicateMapping pyobject :=
  self <- get ;;
  results <- emit (matching type_str (_values self)) ;;
  match results with
  | [] => raise (ValueError (no_matching_entries type_str (_name self)))
  | (_, value0) :: _ =>
      let predicates := map fst results in
      if Nat.ltb 1 (List.length results) then
        raise (ValueError
                 (multiple_matching_entries type_str (_name self) predicates))
      else ret value0
  end.

(** [PredicateMapping._label_for_predicate] *)
Fixpoint label_scan (predicate : Predicate) (items : list (string * Predicate))
    : option string :=
  match items with
  | [] => None
  | (key, value) :: rest =>
      if py_is value predicate then Some key else label_scan predicate rest
  end.

Definition _label_for_predicate (predicate : Predicate)
    : M PredicateMapping string :=
  self <- get ;;
  match label_scan predicate (_labeled_predicates self) with
  | Some key => ret key
  | None =>
      raise (ValueError (fmt ["Matcher "; repr predicate;
                              " not referred to by any label in "; _name self]))
  end.

(** [del self._values[predicate]] and [del self._labeled_predicates[label]] *)
Definition del_values (predicate : Predicate) : M PredicateMapping unit :=
  self <- get ;;
  match Dict.del key_eqb predicate (_values self) with
  | Some vs => put (set_values vs self)
  | None => raise (KeyErrorRaw (PredKey predicate))
  end.

Definition del_labeled_predicates (label : string) : M PredicateMapping unit :=
  self <- get ;;
  match Dict.del String.eqb label (_labeled_predicates self) with
  | Some ls => put (set_labeled_predicates ls self)
  | None => raise (KeyErrorRaw (StrKey label))
  end.

Definition except_KeyError {S A : Type} (h : M S A) (e : exn) : option (M S A) :=
  match e with
  | KeyError _ | KeyErrorRaw _ => Some h
  | _ => None
  end.

Definition except_ValueError {S A : Type} (h : M S A) (e : exn) : option (M S A) :=
  match e with
  | ValueError _ => Some h
  | _ => None
  end.

(** [PredicateMapping.remove_by_equality] *)
Definition remove_by_equality (predicate : Predicate) : M PredicateMapping unit :=
  self <- get ;;
  try_except (del_values predicate)
    (except_KeyError
       (raise (KeyError (fmt ["Matcher "; repr predicate; " not found in ";
                              _name self]))))
    ret ;;
  try_except (_label_for_predicate predicate)
    (except_ValueError (ret tt))
    (fun label => del_labeled_predicates label).

(** [PredicateMapping.remove_by_label] *)
Definition remove_by_label (label : string) : M PredicateMapping unit :=
  self <- get ;;
  predicate <-
    match Dict.get String.eqb label (_labeled_predicates self) with
    | Some p => ret p
    | None =>
        raise (KeyError (fmt ["Label '"; label; "' not found in "; _name self]))
    end ;;
  del_labeled_predicates label ;;
  del_values predicate.

(** ** [ABIRegistry] methods *)

(** [ABIRegistry._register_coder] *)
Definition _register_coder (sd : side) (lookup : Lookup) (coder : pyobject)
    (label : option string) : M ABIRegistry unit :=
  match lookup with
  | Callable p => on_mapping sd (add p coder label)
  | Str s =>
      p <- new_Equals s ;;
      on_mapping sd (add p coder (Some s))
  | Other o =>
      raise (TypeError
               (fmt ["Lookup must be a callable or a value of type `str`: got ";
                     repr_default o]))
  end.

(** [ABIRegistry._unregister_coder] *)
Definition _unregister_coder (sd : side) (lookup_or_label : Lookup)
    : M ABIRegistry unit :=
  match lookup_or_label with
  | Callable p => on_mapping sd (remove_by_equality p)
  | Str s => on_mapping sd (remove_by_label s)
  | Other o =>
      raise (TypeError
               (fmt ["Lookup/label must be a callable or a value of type `str`: got ";
                     repr_default o]))
  end.

(** [ABIRegistry._get_coder]; [self_get] is the bound [self.get_encoder] /
    [self.get_decoder] that [from_type_str] receives through [self]. *)
Definition _get_coder (self_get : side -> string -> M ABIRegistry pyobject)
    (sd : side) (type_str : string) : M ABIRegistry pyobject :=
  coder <-
    try_except (on_mapping sd (find type_str))
      (fun e =>
         match e with
         | ValueError msg =>
             Some (if contains "No matching" msg then
                     parsed <- emit (grammar_parse type_str) ;;
                     match parsed with
                     | Some _ => raise e
                     | None => raise (ParseError type_str)
                     end
                   else raise e)
         | _ => None
         end)
      ret ;;
  match coder with
  | CoderClass cls =>
      emit ([EvFromTypeStr cls type_str], tt) ;;
      from_type_str cls type_str self_get
  | _ => ret coder
  end.

(** [_clear_encoder_cache] / [_clear_decoder_cache] *)
Definition cache_clear (sd : side) : M ABIRegistry unit :=
  fun self => Out [] (Ok tt) (set_cache sd [] self).

Definition _clear_encoder_cache {A : Type} (old_method : M ABIRegistry A)
    : M ABIRegistry A :=
  cache_clear Encoders ;; old_method.

Definition _clear_decoder_cache {A : Type} (old_method : M ABIRegistry A)
    : M ABIRegistry A :=
  cache_clear Decoders ;; old_method.

(** [ABIRegistry.register_encoder] and its siblings *)
Definition register_encoder (lookup : Lookup) (encoder : pyobject)
    (label : option string) : M ABIRegistry unit :=
  _clear_encoder_cache (_register_coder Encoders lookup encoder label).

Definition unregister_encoder (lookup_or_label : Lookup) : M ABIRegistry unit :=
  _clear_encoder_cache (_unregister_coder Encoders lookup_or_label).

Definition register_decoder (lookup : Lookup) (decoder : pyobject)
    (label : option string) : M ABIRegistry unit :=
  _clear_decoder_cache (_register_coder Decoders lookup decoder label).

Definition unregister_decoder (lookup_or_label : Lookup) : M ABIRegistry unit :=
  _clear_decoder_cache (_unregister_coder Decoders lookup_or_label).

(** [ABIRegistry.register] *)
Definition register (lookup : Lookup) (encoder decoder : pyobject)
    (label : option string) : M ABIRegistry unit :=
  register_encoder lookup encoder label ;;
  register_decoder lookup decoder label.

(** [ABIRegistry.unregister] *)
Definition unregister (label : string) : M ABIRegistry unit :=
  unregister_encoder (Str label) ;;
  unregister_decoder (Str label).

(** [functools.lru_cache(maxsize=None)] around [_get_coder]: a hit returns
    the stored object; a miss runs the method and stores what it returns
    (nothing is stored when it raises). [fuel] bounds the nesting of
    [get_encoder] / [get_decoder] calls made from inside [from_type_str];
    running out is the interpreter's [RecursionError]. *)
Fixpoint lru_cached (fuel : nat) (sd : side) (type_str : string)
    : M ABIRegistry pyobject :=
  fun self =>
    match Dict.get String.eqb type_str (cache sd self) with
    | Some hit => Out [] (Ok hit) self
    | None =>
        match fuel with
        | O => Out [] (Raise RecursionError) self
        | S fuel' =>
            (value <- _get_coder (lru_cached fuel') sd type_str ;;
             self' <- get ;;
             put (set_cache sd (Dict.set String.eqb type_str value (cache sd self'))
                            self') ;;
             ret value) self
        end
    end.

(** [ABIRegistry.get_encoder] / [ABIRegistry.get_decoder] *)
Definition get_encoder (fuel : nat) (type_str : string) : M ABIRegistry pyobject :=
  lru_cached fuel Encoders type_str.

Definition get_decoder (fuel : nat) (type_str : string) : M ABIRegistry pyobject :=
  lru_cached fuel Decoders type_str.

(** ** The default registry *)

(** [BaseEquals(base, with_sub=...)]: a new object. *)
Definition new_BaseEquals (base : string) (with_sub : option bool)
    : M ABIRegistry Predicate :=
  fun self =>
    Out [] (Ok (Pred (next_address self) (BaseEquals base with_sub)))
        (Registry (_encoders self) (_decoders self) (get_encoder_cache self)
                  (get_decoder_cache self) (S (next_address self))).

Definition register_base (base : string) (with_sub : option bool)
    (encoder decoder : address) (label : string) : M ABIRegistry unit :=
  p <- new_BaseEquals base with_sub ;;
  register (Callable p) (CoderClass encoder) (CoderClass decoder) (Some label).

(** The module-level [registry.register(...)] calls, in order. *)
Definition bootstrap : M ABIRegistry unit :=
  register_base "uint" None
    Static.UnsignedIntegerEncoder Static.UnsignedIntegerDecoder "uint" ;;
  register_base "int" None
    Static.SignedIntegerEncoder Static.SignedIntegerDecoder "int" ;;
  register_base "address" None
    Static.AddressEncoder Static.AddressDecoder "address" ;;
  register_base "bool" None
    Static.BooleanEncoder Static.BooleanDecoder "bool" ;;
  register_base "ufixed" None
    Static.UnsignedFixedEncoder Static.UnsignedFixedDecoder "ufixed" ;;
  register_base "fixed" None
    Static.SignedFixedEncoder Static.SignedFixedDecoder "fixed" ;;
  register_base "bytes" (Some true)
    Static.BytesEncoder Static.BytesDecoder "bytes<M>" ;;
  register_base "bytes" (Some false)
    Static.ByteStringEncoder Static.ByteStringDecoder "bytes" ;;
  register_base "function" None
    Static.BytesEncoder Static.BytesDecoder "function" ;;
  register_base "string" None
    Static.TextStringEncoder Static.StringDecoder "string" ;;
  register (Callable (Pred Static.has_arrlist (Function has_arrlist)))
    (CoderClass Static.BaseArrayEncoder) (CoderClass Static.BaseArrayDecoder)
    (Some "has_arrlist") ;;
  register (Callable (Pred Static.is_tuple_type (Function is_tuple_type)))
    (CoderClass Static.TupleEncoder) (CoderClass Static.TupleDecoder)
    (Some "is_tuple_type").

(** [registry = ABIRegistry()] after the bootstrap. *)
Definition registry : ABIRegistry :=
  state (bootstrap (ABIRegistry_init Static.first_free)).

End Registry.

(** ** A concrete set of collaborators

    Enough of the grammar and of the coder classes to run the registry on
    the type strings ["uint256"], ["bytes32"], ["bytes"], ["address"],
    ["bool"], ["address[2]"] and ["(uint256,bool)"]. *)

Definition scenario_parse (type_str : string) : option ABIType :=
  if String.eqb type_str "uint256" then Some (BasicType "uint" (Some 256) None)
  else if String.eqb type_str "bytes32" then Some (BasicType "bytes" (Some 32) None)
  else if String.eqb type_str "bytes" then Some (BasicType "bytes" None None)
  else if String.eqb type_str "address" then Some (BasicType "address" None None)
  else if String.eqb type_str "bool" then Some (BasicType "bool" None None)
  else if String.eqb type_str "address[2]" then
    Some (BasicType "address" None (Some [Some 2]))
  else if String.eqb type_str "(uint256,bool)" then
    Some (TupleType [BasicType "uint" (Some 256) None;
                     BasicType "bool" None None] None)
  else None.

(** [repr] of a [str] without quotes or escapes to take care of. *)
Definition scenario_repr_str (s : string) : string := fmt ["'"; s; "'"].

Definition scenario_repr_default (o : address) : string :=
  fmt ["<object at "; NilZero.string_of_uint (Nat.to_uint o); ">"].

(** A new instance of [cls] for [type_str]. *)
Definition new_instance (cls : address) (type_str : string)
    : M ABIRegistry pyobject :=
  fun self =>
    Out [] (Ok (CoderInstance (next_address self) cls type_str))
        (Registry (_encoders self) (_decoders self) (get_encoder_cache self)
                  (get_decoder_cache self) (S (next_address self))).

(** Array and tuple coders resolve their element coders through the
    registry before they are built; the others are built directly. *)
Definition scenario_from_type_str (cls : address) (type_str : string)
    (self_get : side -> string -> M ABIRegistry pyobject)
    : M ABIRegistry pyobject :=
  let sd := if Nat.even cls then Encoders else Decoders in
  if (Nat.eqb cls Static.BaseArrayEncoder || Nat.eqb cls Static.BaseArrayDecoder)%bool
  then
    if String.eqb type_str "address[2]" then
      self_get sd "address" ;; new_instance cls type_str
    else raise (CoderError 0)
  else if (Nat.eqb cls Static.TupleEncoder || Nat.eqb cls Static.TupleDecoder)%bool
  then
    if String.eqb type_str "(uint256,bool)" then
      self_get sd "uint256" ;; self_get sd "bool" ;; new_instance cls type_str
    else raise (CoderError 0)
  else new_instance cls type_str.

Definition scenario : Collaborators :=
  {| parse := scenario_parse;
     repr_str := scenario_repr_str;
     repr_default := scenario_repr_default;
     from_type_str := scenario_from_type_str |}.

(** ** [PredicateMapping.remove] *)

Section Remove.
Context {env : Collaborators}.

(** [str(type(x))] of a value [x] that is neither callable nor a [str]. *)
Variable str_type : address -> string.

(** [PredicateMapping.remove] *)
Definition remove (predicate_or_label : Lookup) : M PredicateMapping unit :=
  match predicate_or_label with
  | Callable p => remove_by_equality p
  | Str s => remove_by_label s
  | Other o =>
      raise (TypeError
               (fmt ["Key to be removed must be callable or string: got ";
                     str_type o]))
  end.

End Remove.

(** ** The invariant of a [PredicateMapping]

    What [add] relies on and keeps (the comment in [_label_for_predicate]:
    both keys and values of [_labeled_predicates] are unique). *)

(** No key of a dict compares equal to a key stored after it. *)
Fixpoint distinct_keys {K V : Type} (eqb : K -> K -> bool) (d : list (K * V))
    : Prop :=
  match d with
  | [] => True
  | (k, _) :: rest =>
      Forall (fun x => eqb k (fst x) = false) rest /\ distinct_keys eqb rest
  end.

Record well_formed (self : PredicateMapping) : Prop :=
  WellFormed
    { (** the two dicts are dicts *)
      values_distinct : distinct_keys key_eqb (_values self);
      labels_distinct : distinct_keys String.eqb (_labeled_predicates self);
      (** every label is bound to a predicate object that is stored *)
      labels_point_in :
        forall l p, In (l, p) (_labeled_predicates self) ->
                    exists v, In (p, v) (_values self);
      (** no two labels are bound to one object *)
      labels_one_each :
        NoDup (map (fun lp => id (snd lp)) (_labeled_predicates self)) }.

(** * Properties *)

Unset Implicit Arguments.

(** ** Facts about dicts *)

Section DictFacts.
Variables K V : Type.
Variable eqb : K -> K -> bool.
Hypothesis eqb_refl : forall k, eqb k k = true.

Lemma dict_set_fresh (k : K) (v : V) (d : list (K * V)) :
  Dict.mem eqb k d = false -> Dict.set eqb k v d = d ++ [(k, v)].
Proof.
  unfold Dict.mem. induction d as [|[k' v'] d IH]; simpl; [reflexivity|].
  destruct (eqb k' k); [discriminate|].
  intros H. rewrite (IH H). reflexivity.
Qed.

Lemma dict_get_last (k : K) (v : V) (d : list (K * V)) :
  Dict.mem eqb k d = false -> Dict.get eqb k (d ++ [(k, v)]) = Some v.
Proof.
  unfold Dict.mem. induction d as [|[k' v'] d IH]; simpl.
  - now rewrite eqb_refl.
  - destruct (eqb k' k); [discriminate | exact IH].
Qed.

Lemma dict_del_last (k : K) (v : V) (d : list (K * V)) :
  Dict.mem eqb k d = false -> Dict.del eqb k (d ++ [(k, v)]) = Some d.
Proof.
  unfold Dict.mem. induction d as [|[k' v'] d IH]; simpl.
  - now rewrite eqb_refl.
  - destruct (eqb k' k); [discriminate|].
    intros H. now rewrite (IH H).
Qed.

Lemma dict_del_last_eq (k k' : K) (v : V) (d : list (K * V)) :
  Dict.mem eqb k d = false -> eqb k' k = true ->
  Dict.del eqb k (d ++ [(k', v)]) = Some d.
Proof.
  unfold Dict.mem. intros H Hk. induction d as [|[k0 v0] d IH]; simpl in *.
  - now rewrite Hk.
  - destruct (eqb k0 k); [discriminate|]. now rewrite (IH H).
Qed.

Lemma dict_get_set_same (k : K) (v : V) (d : list (K * V)) :
  Dict.get eqb k (Dict.set eqb k v d) = Some v.
Proof.
  induction d as [|[k' v'] d IH]; simpl.
  - now rewrite eqb_refl.
  - destruct (eqb k' k) eqn:E; simpl; rewrite E; [reflexivity | exact IH].
Qed.

End DictFacts.

Lemma key_eqb_refl (p : Predicate) : key_eqb p p = true.
Proof. unfold key_eqb, py_is. now rewrite Nat.eqb_refl. Qed.

(** ** Facts about strings *)

Lemma startswith_append (n a b : string) :
  startswith n a = true -> startswith n (a ++ b)%string = true.
Proof.
  revert a. induction n as [|c n IH]; intros a H; simpl in *; [reflexivity|].
  destruct a as [|c' a]; simpl; [discriminate|].
  apply andb_true_iff in H. destruct H as [Hc H].
  rewrite Hc. simpl. apply IH, H.
Qed.

Lemma contains_append_l (n a b : string) :
  contains n a = true -> contains n (a ++ b)%string = true.
Proof.
  induction a as [|c a IH]; simpl; intros H.
  - rewrite orb_false_r in H. destruct n; [|discriminate].
    destruct b; reflexivity.
  - apply orb_true_iff in H. apply orb_true_iff. destruct H as [H|H].
    + left. apply startswith_append with (a := String c a), H.
    + right. apply IH, H.
Qed.

Lemma contains_append_r (n a b : string) :
  contains n b = true -> contains n (a ++ b)%string = true.
Proof.
  intros H. induction a as [|c a IH]; simpl; [exact H|].
  rewrite IH. apply orb_true_r.
Qed.

Lemma startswith_refl (n : string) : startswith n n = true.
Proof.
  induction n as [|c n IH]; simpl; [reflexivity|].
  now rewrite Ascii.eqb_refl.
Qed.

Lemma contains_self (n : string) : contains n n = true.
Proof.
  destruct n as [|c n]; [reflexivity|].
  unfold contains; fold contains. now rewrite startswith_refl.
Qed.

Lemma contains_concat_part (sep x y : string) (l : list string) :
  In y l -> contains x y = true -> contains x (String.concat sep l) = true.
Proof.
  intros Hin Hx. induction l as [|z l IH]; [destruct Hin|].
  destruct Hin as [->|Hin].
  - destruct l; simpl; [exact Hx|]. now apply contains_append_l.
  - destruct l as [|z' l]; [destruct Hin|].
    change (String.concat sep (z :: z' :: l))
      with (z ++ sep ++ String.concat sep (z' :: l))%string.
    apply contains_append_r, contains_append_r, IH, Hin.
Qed.

Lemma contains_concat (sep x : string) (l : list string) :
  In x l -> contains x (String.concat sep l) = true.
Proof.
  intros H. apply contains_concat_part with (y := x); [exact H | apply contains_self].
Qed.

(** ** Running the monad step by step *)

Lemma after_nil (S A : Type) (o : outcome S A) : after [] o = o.
Proof. now destruct o. Qed.

Lemma run_bind_Ok (S A B : Type) (m : M S A) (k : A -> M S B) (s s' : S)
    (evs : list event) (a : A) :
  m s = Out evs (Ok a) s' -> (x <- m ;; k x) s = after evs (k a s').
Proof. unfold bind. now intros ->. Qed.

Lemma run_try_Ok (S A B : Type) (body : M S A)
    (handler : exn -> option (M S B)) (orelse : A -> M S B) (s s' : S)
    (evs : list event) (a : A) :
  body s = Out evs (Ok a) s' ->
  try_except body handler orelse s = after evs (orelse a s').
Proof. unfold try_except. now intros ->. Qed.

Lemma run_try_Raise (S A B : Type) (body : M S A)
    (handler : exn -> option (M S B)) (orelse : A -> M S B) (s s' : S)
    (evs : list event) (e : exn) :
  body s = Out evs (Raise e) s' ->
  try_except body handler orelse s =
  match handler e with
  | Some h => after evs (h s')
  | None => Out evs (Raise e) s'
  end.
Proof. unfold try_except. now intros ->. Qed.

(** ** [PredicateMapping] *)

Section PredicateMappingFacts.
Context {env : Collaborators}.

Lemma mapping_eta (self : PredicateMapping) :
  Mapping (_name self) (_values self) (_labeled_predicates self) = self.
Proof. now destruct self. Qed.

Lemma add_raise_keeps (p : Predicate) (v : pyobject) (l : option string)
    (self : PredicateMapping) (e : exn) :
  res (add p v l self) = Raise e -> state (add p v l self) = self.
Proof.
  unfold add, bind, get, put, raise, ret, after. simpl.
  destruct (Dict.mem key_eqb p (_values self)); simpl; [reflexivity|].
  destruct l as [x|]; simpl; [|discriminate].
  destruct (Dict.mem String.eqb x (_labeled_predicates self)); simpl;
    [reflexivity | discriminate].
Qed.

Lemma add_ok_appends (p : Predicate) (v : pyobject) (l : option string)
    (self : PredicateMapping) :
  res (add p v l self) = Ok tt ->
  Dict.mem key_eqb p (_values self) = false /\
  match l with
  | Some x => Dict.mem String.eqb x (_labeled_predicates self) = false
  | None => True
  end /\
  state (add p v l self) =
    Mapping (_name self) (_values self ++ [(p, v)])
      (match l with
       | Some x => _labeled_predicates self ++ [(x, p)]
       | None => _labeled_predicates self
       end).
Proof.
  unfold add, bind, get, put, raise, ret, after. simpl.
  destruct (Dict.mem key_eqb p (_values self)) eqn:Hp; simpl; [discriminate|].
  destruct l as [x|]; simpl.
  - destruct (Dict.mem String.eqb x (_labeled_predicates self)) eqn:Hx; simpl;
      [discriminate|].
    intros _. rewrite !dict_set_fresh by assumption. auto.
  - intros _. rewrite !dict_set_fresh by assumption. auto.
Qed.

(** C8: [add] either raises a [ValueError] and leaves both indices as they
    were (an equal predicate is stored, or the label is taken), or it
    succeeds and the mapping is the old one with the predicate appended to
    the primary index and, when a label is given, the label appended to the
    secondary index. *)
Theorem add_all_or_nothing (predicate : Predicate) (value : pyobject)
    (label : option string) (self : PredicateMapping) :
  let o := add predicate value label self in
  let duplicate_predicate := Dict.mem key_eqb predicate (_values self) in
  let duplicate_label :=
    match label with
    | Some l => Dict.mem String.eqb l (_labeled_predicates self)
    | None => false
    end in
  if duplicate_predicate || duplicate_label then
    (exists msg, res o = Raise (ValueError msg)) /\ state o = self
  else
    res o = Ok tt /\
    state o =
      Mapping (_name self) (_values self ++ [(predicate, value)])
        (match label with
         | Some l => _labeled_predicates self ++ [(l, predicate)]
         | None => _labeled_predicates self
         end) /\
    Dict.get key_eqb predicate (_values (state o)) = Some value /\
    match label with
    | Some l =>
        Dict.get String.eqb l (_labeled_predicates (state o)) = Some predicate
    | None => True
    end.
Proof.
  cbv zeta. unfold add, bind, get, put, raise, ret, after. simpl.
  destruct (Dict.mem key_eqb predicate (_values self)) eqn:Hp; simpl.
  - split; [eexists; reflexivity | reflexivity].
  - destruct label as [l|]; simpl.
    + destruct (Dict.mem String.eqb l (_labeled_predicates self)) eqn:Hl; simpl.
      * split; [eexists; reflexivity | reflexivity].
      * rewrite !dict_set_fresh by assumption.
        repeat split.
        -- apply dict_get_last; [apply key_eqb_refl | exact Hp].
        -- apply dict_get_last; [apply String.eqb_refl | exact Hl].
    + rewrite !dict_set_fresh by assumption. unfold set_values. simpl.
      repeat split.
      apply dict_get_last; [apply key_eqb_refl | exact Hp].
Qed.

Lemma matching_filter (type_str : string) (items : list (Predicate * pyobject)) :
  snd (matching type_str items) =
  filter (fun pv => accepts (fst pv) type_str) items.
Proof.
  induction items as [|[p v] items IH]; simpl; [reflexivity|].
  rewrite <- IH. unfold accepts.
  destruct (call p type_str) as [e1 b].
  destruct (matching type_str items) as [e2 r]. reflexivity.
Qed.

Lemma find_cases (type_str : string) (self : PredicateMapping) :
  let hits := filter (fun pv => accepts (fst pv) type_str) (_values self) in
  let o := find type_str self in
  state o = self /\
  events o = fst (matching type_str (_values self)) /\
  res o =
    match hits with
    | [] => Raise (ValueError (no_matching_entries type_str (_name self)))
    | [(_, v)] => Ok v
    | _ =>
        Raise (ValueError (multiple_matching_entries type_str (_name self)
                             (map fst hits)))
    end.
Proof.
  cbv zeta. rewrite <- matching_filter.
  unfold find, bind, get, emit, raise, ret, after. simpl.
  destruct (snd (matching type_str (_values self))) as [|[p v] [|pv rest]];
    simpl; rewrite ?app_nil_r; auto.
Qed.

Lemma multiple_names_all (type_str name : string) (ps : list Predicate)
    (p : Predicate) :
  In p ps ->
  contains (repr p) (multiple_matching_entries type_str name ps) = true.
Proof.
  intros H. unfold multiple_matching_entries, fmt.
  apply contains_concat_part with (y := String.concat ", " (map repr ps)).
  - simpl. tauto.
  - apply contains_concat, in_map, H.
Qed.

Lemma Raise_ValueError_inj (A : Type) (a b : string) :
  @Raise A (ValueError a) = Raise (ValueError b) -> a = b.
Proof. intros H. now inversion H. Qed.

Lemma messages_differ (type_str name : string) (ps : list Predicate) :
  no_matching_entries type_str name <>
  multiple_matching_entries type_str name ps.
Proof. unfold no_matching_entries, multiple_matching_entries. cbn. discriminate. Qed.

(** C1: [find] leaves the mapping as it is and
    - raises the no-match [ValueError] iff no stored predicate accepts the
      type string,
    - raises the multiple-match [ValueError], whose message holds the [repr]
      of every accepting predicate, iff two or more accept it,
    - and otherwise returns the value stored under the one that accepts it. *)
Theorem find_exactly_one (type_str : string) (self : PredicateMapping) :
  let hits := filter (fun pv => accepts (fst pv) type_str) (_values self) in
  let no_match := ValueError (no_matching_entries type_str (_name self)) in
  let ambiguous :=
    ValueError (multiple_matching_entries type_str (_name self) (map fst hits)) in
  let o := find type_str self in
  state o = self /\
  (res o = Raise no_match <-> List.length hits = 0) /\
  (res o = Raise ambiguous <-> 2 <= List.length hits) /\
  (forall p v, In (p, v) hits -> 2 <= List.length hits ->
     exists msg, res o = Raise (ValueError msg) /\
                 contains (repr p) msg = true) /\
  (forall e, res o = Raise e -> e = no_match \/ e = ambiguous) /\
  (forall p v, hits = [(p, v)] -> res o = Ok v).
Proof.
  cbv zeta.
  destruct (find_cases type_str self) as (Hs & _ & Hr). cbv zeta in Hr.
  split; [exact Hs|]. rewrite Hr. clear Hr Hs.
  remember (filter (fun pv => accepts (fst pv) type_str) (_values self)) as hits.
  pose proof (messages_differ type_str (_name self) (map fst hits)) as Hd.
  destruct hits as [|[p v] [|pv rest]].
  - split; [split; intros; reflexivity|].
    split; [split; [intros H; apply Raise_ValueError_inj in H; exfalso; exact (Hd H)
                   | simpl; lia]|].
    split; [intros ? ? []|].
    split; [intros e H; left; congruence|].
    intros; discriminate.
  - split; [split; [discriminate | simpl; discriminate]|].
    split; [split; [discriminate | simpl; lia]|].
    split; [intros q w _ H; exfalso; simpl in H; lia|].
    split; [intros e H; discriminate|].
    intros q w H. congruence.
  - split; [split; [intros H; apply Raise_ValueError_inj in H; exfalso;
                     exact (Hd (eq_sym H))
                   | simpl; discriminate]|].
    split; [split; intros; [simpl; lia | reflexivity]|].
    split; [|split; [intros e H; right; congruence | intros; discriminate]].
    intros q w Hin _. eexists. split; [reflexivity|].
    apply multiple_names_all. exact (in_map fst _ _ Hin).
Qed.

Lemma remove_by_label_last (name label : string) (p : Predicate) (v : pyobject)
    (vs : list (Predicate * pyobject)) (ls : list (string * Predicate)) :
  Dict.mem key_eqb p vs = false ->
  Dict.mem String.eqb label ls = false ->
  let o := remove_by_label label
             (Mapping name (vs ++ [(p, v)]) (ls ++ [(label, p)])) in
  res o = Ok tt /\ state o = Mapping name vs ls.
Proof.
  intros Hp Hl. cbv zeta.
  unfold remove_by_label, del_labeled_predicates, del_values.
  unfold bind, get, put, raise, ret, after. simpl.
  rewrite (dict_get_last _ _ String.eqb String.eqb_refl label p ls Hl). simpl.
  rewrite (dict_del_last _ _ String.eqb String.eqb_refl label p ls Hl). simpl.
  rewrite (dict_del_last _ _ key_eqb key_eqb_refl p v vs Hp). simpl.
  auto.
Qed.

Lemma label_scan_last (p q : Predicate) (l : string)
    (ls : list (string * Predicate)) :
  label_scan p ls = None ->
  label_scan p (ls ++ [(l, q)]) = if py_is q p then Some l else None.
Proof.
  induction ls as [|[k w] ls IH]; simpl; [reflexivity|].
  destruct (py_is w p); [discriminate | exact IH].
Qed.

Lemma del_values_last (name : string) (stored probe : Predicate) (v : pyobject)
    (vs : list (Predicate * pyobject)) (ls : list (string * Predicate)) :
  Dict.mem key_eqb probe vs = false ->
  key_eqb stored probe = true ->
  del_values probe (Mapping name (vs ++ [(stored, v)]) ls) =
  Out [] (Ok tt) (Mapping name vs ls).
Proof.
  intros Hp He. unfold del_values, bind, get, put, raise, after. cbn.
  now rewrite (dict_del_last_eq _ _ key_eqb probe stored v vs Hp He).
Qed.

Lemma del_labeled_predicates_last (name l : string) (p : Predicate)
    (vs : list (Predicate * pyobject)) (ls : list (string * Predicate)) :
  Dict.mem String.eqb l ls = false ->
  del_labeled_predicates l (Mapping name vs (ls ++ [(l, p)])) =
  Out [] (Ok tt) (Mapping name vs ls).
Proof.
  intros Hl. unfold del_labeled_predicates, bind, get, put, raise, after. cbn.
  now rewrite (dict_del_last _ _ String.eqb String.eqb_refl l p ls Hl).
Qed.

Lemma _label_for_predicate_run (p : Predicate) (self : PredicateMapping) :
  exists msg,
    _label_for_predicate p self =
    Out [] (match label_scan p (_labeled_predicates self) with
            | Some key => Ok key
            | None => Raise (ValueError msg)
            end) self.
Proof.
  eexists. unfold _label_for_predicate, bind, get, ret, raise, after. cbn.
  destruct (label_scan p (_labeled_predicates self)); reflexivity.
Qed.

(** [remove_by_equality] when no label is bound to the very object it is
    given: the entry goes, the labels stay as they are. *)
Lemma remove_by_equality_unlabelled (name : string) (stored probe : Predicate)
    (v : pyobject) (vs : list (Predicate * pyobject))
    (ls : list (string * Predicate)) :
  Dict.mem key_eqb probe vs = false ->
  key_eqb stored probe = true ->
  label_scan probe ls = None ->
  remove_by_equality probe (Mapping name (vs ++ [(stored, v)]) ls) =
  Out [] (Ok tt) (Mapping name vs ls).
Proof.
  intros Hp He Hl. unfold remove_by_equality.
  erewrite run_bind_Ok by reflexivity. rewrite after_nil.
  erewrite run_bind_Ok;
    [|erewrite run_try_Ok by (apply del_values_last; eassumption);
      reflexivity].
  destruct (_label_for_predicate_run probe (Mapping name vs ls)) as (msg & Hrun).
  cbn [_labeled_predicates] in Hrun. rewrite Hl in Hrun.
  erewrite run_try_Raise by exact Hrun.
  reflexivity.
Qed.

(** [remove_by_equality] given the stored object itself, which the label
    [l] is bound to: entry and label both go. *)
Lemma remove_by_equality_same_object (name l : string) (p : Predicate)
    (v : pyobject) (vs : list (Predicate * pyobject))
    (ls : list (string * Predicate)) :
  Dict.mem key_eqb p vs = false ->
  Dict.mem String.eqb l ls = false ->
  label_scan p ls = None ->
  remove_by_equality p (Mapping name (vs ++ [(p, v)]) (ls ++ [(l, p)])) =
  Out [] (Ok tt) (Mapping name vs ls).
Proof.
  intros Hp Hl Hs. unfold remove_by_equality.
  erewrite run_bind_Ok by reflexivity. rewrite after_nil.
  erewrite run_bind_Ok;
    [|erewrite run_try_Ok
        by (apply del_values_last; [exact Hp | apply key_eqb_refl]);
      reflexivity].
  destruct (_label_for_predicate_run p (Mapping name vs (ls ++ [(l, p)])))
    as (msg & Hrun).
  cbn [_labeled_predicates] in Hrun.
  rewrite (label_scan_last p p l ls Hs) in Hrun.
  unfold py_is in Hrun. rewrite Nat.eqb_refl in Hrun.
  erewrite run_try_Ok by exact Hrun.
  rewrite (del_labeled_predicates_last name l p vs ls Hl).
  reflexivity.
Qed.

End PredicateMappingFacts.

(** ** Predicates *)

Section RegistryFacts.
Context {env : Collaborators}.

(** C9: a [BaseEquals(base, with_sub)] object accepts a type string exactly
    when the grammar parses it to a [BasicType] without an array list, whose
    base is [base] and whose sub is present ([with_sub=True]), absent
    ([with_sub=False]) or anything ([with_sub=None]); on a string that does
    not parse the call returns [False]. *)
Theorem BaseEquals_accepts (a : address) (base : string)
    (with_sub : option bool) (type_str : string) :
  (accepts (Pred a (BaseEquals base with_sub)) type_str = true <->
   exists abi_sub,
     parse type_str = Some (BasicType base abi_sub None) /\
     match with_sub with
     | Some true => abi_sub <> None
     | Some false => abi_sub = None
     | None => True
     end) /\
  (parse type_str = None ->
   accepts (Pred a (BaseEquals base with_sub)) type_str = false).
Proof.
  unfold accepts, call, BaseEquals_call, grammar_parse. simpl.
  destruct (parse type_str) as [[abi_base abi_sub abi_arrlist|cs al]|];
    simpl.
  - split; [|discriminate].
    destruct abi_arrlist as [dims|]; simpl.
    + split; [discriminate|]. intros (sub & H & _). discriminate.
    + destruct with_sub as [[|]|]; destruct abi_sub as [n|]; simpl;
        first
          [ rewrite String.eqb_eq; split;
            [ intros ->; eexists; split;
              [reflexivity | first [discriminate | reflexivity | exact I]]
            | intros (sub' & H & _); now inversion H ]
          | split;
            [ discriminate
            | intros (sub' & H & Hs); inversion H; subst; congruence ] ].
  - split; [|discriminate].
    split; [discriminate|]. intros (sub & H & _). discriminate.
  - split; [|reflexivity].
    split; [discriminate|]. intros (sub & H & _). discriminate.
Qed.

(** ** The resolution cache *)

Lemma cache_set_cache (sd : side) (c : list (string * pyobject))
    (self : ABIRegistry) :
  cache sd (set_cache sd c self) = c.
Proof. now destruct sd. Qed.

Lemma lru_cached_hit (fuel : nat) (sd : side) (type_str : string)
    (self : ABIRegistry) (v : pyobject) :
  Dict.get String.eqb type_str (cache sd self) = Some v ->
  lru_cached fuel sd type_str self = Out [] (Ok v) self.
Proof. intros H. destruct fuel; cbn [lru_cached]; now rewrite H. Qed.

Lemma lru_cached_stores (fuel : nat) (sd : side) (type_str : string)
    (self self' : ABIRegistry) (evs : list event) (v : pyobject) :
  lru_cached fuel sd type_str self = Out evs (Ok v) self' ->
  Dict.get String.eqb type_str (cache sd self') = Some v.
Proof.
  destruct fuel as [|fuel]; cbn [lru_cached];
    destruct (Dict.get String.eqb type_str (cache sd self)) as [hit|] eqn:Hc;
    intros H; try (inversion H; subst; exact Hc); try discriminate.
  unfold bind at 1 in H.
  destruct (_get_coder (lru_cached fuel) sd type_str self) as [e1 [w|x] s1];
    cbn in H; [|discriminate].
  inversion H; subst. rewrite cache_set_cache.
  apply dict_get_set_same, String.eqb_refl.
Qed.

(** C5: when [get_encoder(T)] returns an object, calling [get_encoder(T)]
    again right away returns that very object (same address), calls no
    predicate, no grammar parser and no [from_type_str], and changes
    nothing. *)
Theorem get_encoder_twice (fuel fuel' : nat) (type_str : string)
    (self self' : ABIRegistry) (evs : list event) (v : pyobject) :
  get_encoder fuel type_str self = Out evs (Ok v) self' ->
  get_encoder fuel' type_str self' = Out [] (Ok v) self'.
Proof.
  unfold get_encoder. intros H.
  apply lru_cached_hit.
  exact (lru_cached_stores fuel Encoders type_str self self' evs v H).
Qed.

(** X18: the same for [get_decoder]: a second call returns the object of
    the first from the decoder cache, calls nothing and changes nothing. *)
Lemma get_decoder_twice (fuel fuel' : nat) (type_str : string)
    (self self' : ABIRegistry) (evs : list event) (v : pyobject) :
  get_decoder fuel type_str self = Out evs (Ok v) self' ->
  get_decoder fuel' type_str self' = Out [] (Ok v) self'.
Proof.
  unfold get_decoder. intros H.
  apply lru_cached_hit.
  exact (lru_cached_stores fuel Decoders type_str self self' evs v H).
Qed.

(** ** Registration *)

Lemma mapping_set_mapping (sd : side) (pm : PredicateMapping) (self : ABIRegistry) :
  mapping sd (set_mapping sd pm self) = pm.
Proof. now destruct sd. Qed.

Lemma mapping_set_mapping_other (sd sd' : side) (pm : PredicateMapping)
    (self : ABIRegistry) :
  sd' <> sd -> mapping sd' (set_mapping sd pm self) = mapping sd' self.
Proof. destruct sd, sd'; simpl; congruence. Qed.

Lemma _register_coder_frame (sd : side) (lookup : Lookup) (coder : pyobject)
    (label : option string) (self : ABIRegistry) :
  let o := _register_coder sd lookup coder label self in
  get_encoder_cache (state o) = get_encoder_cache self /\
  get_decoder_cache (state o) = get_decoder_cache self /\
  (forall sd', sd' <> sd -> mapping sd' (state o) = mapping sd' self) /\
  (forall e, res o = Raise e -> mapping sd (state o) = mapping sd self).
Proof.
  cbv zeta. destruct lookup as [p|s|x];
    unfold _register_coder, on_mapping, new_Equals, bind, raise, after;
    cbn -[add].
  - repeat split; try (destruct sd; reflexivity).
    + intros sd' H. now apply mapping_set_mapping_other.
    + intros e H. rewrite mapping_set_mapping. now apply add_raise_keeps in H.
  - repeat split; try (destruct sd; reflexivity).
    + intros sd' H. rewrite mapping_set_mapping_other by exact H.
      now destruct sd'.
    + intros e H. rewrite mapping_set_mapping.
      apply add_raise_keeps in H. rewrite H. now destruct sd.
  - repeat split; auto.
Qed.

Lemma _register_coder_ok (sd : side) (lookup : Lookup) (coder : pyobject)
    (label : option string) (self : ABIRegistry) :
  let o := _register_coder sd lookup coder label self in
  res o = Ok tt ->
  exists p l,
    match lookup with
    | Callable q => p = q /\ l = label
    | Str s => p = Pred (next_address self) (Equals s) /\ l = Some s
    | Other _ => False
    end /\
    Dict.mem key_eqb p (_values (mapping sd self)) = false /\
    match l with
    | Some x =>
        Dict.mem String.eqb x (_labeled_predicates (mapping sd self)) = false
    | None => True
    end /\
    mapping sd (state o) =
      Mapping (_name (mapping sd self))
        (_values (mapping sd self) ++ [(p, coder)])
        (match l with
         | Some x => _labeled_predicates (mapping sd self) ++ [(x, p)]
         | None => _labeled_predicates (mapping sd self)
         end).
Proof.
  cbv zeta. destruct lookup as [p|s|x];
    unfold _register_coder, on_mapping, new_Equals, bind, raise, after;
    cbn -[add].
  - intros H. apply add_ok_appends in H. destruct H as (Hp & Hl & Hs).
    exists p, label. rewrite mapping_set_mapping. auto.
  - set (self1 := Registry _ _ _ _ _).
    assert (Hm : mapping sd self1 = mapping sd self) by now destruct sd.
    rewrite Hm. intros H. apply add_ok_appends in H.
    destruct H as (Hp & Hl & Hs).
    eexists; eexists. rewrite mapping_set_mapping. eauto.
  - discriminate.
Qed.

Lemma cache_clear_spec (sd : side) (A : Type) (m : M ABIRegistry A)
    (self : ABIRegistry) :
  (cache_clear sd ;; m) self = m (set_cache sd [] self).
Proof.
  unfold cache_clear, bind, after. simpl.
  now destruct (m (set_cache sd [] self)).
Qed.

Lemma mapping_set_cache (sd sd' : side) (c : list (string * pyobject))
    (self : ABIRegistry) :
  mapping sd' (set_cache sd c self) = mapping sd' self.
Proof. now destruct sd, sd'. Qed.

Lemma register_encoder_unfold (lookup : Lookup) (coder : pyobject)
    (label : option string) (self : ABIRegistry) :
  register_encoder lookup coder label self =
  _register_coder Encoders lookup coder label (set_cache Encoders [] self).
Proof. apply cache_clear_spec. Qed.

Lemma register_decoder_unfold (lookup : Lookup) (coder : pyobject)
    (label : option string) (self : ABIRegistry) :
  register_decoder lookup coder label self =
  _register_coder Decoders lookup coder label (set_cache Decoders [] self).
Proof. apply cache_clear_spec. Qed.

(** C3, as the code has it: [register_encoder] / [register_decoder] empty
    the cache of their side before they delegate, whether or not the
    registration then succeeds; the other side's mapping and cache are not
    touched, and a registration that raises leaves the mapping of its own
    side as it was. *)
Theorem registration_clears_cache (lookup : Lookup) (coder : pyobject)
    (label : option string) (self : ABIRegistry) :
  let oe := register_encoder lookup coder label self in
  let od := register_decoder lookup coder label self in
  (get_encoder_cache (state oe) = [] /\
   get_decoder_cache (state oe) = get_decoder_cache self /\
   _decoders (state oe) = _decoders self /\
   (forall e, res oe = Raise e -> _encoders (state oe) = _encoders self)) /\
  (get_decoder_cache (state od) = [] /\
   get_encoder_cache (state od) = get_encoder_cache self /\
   _encoders (state od) = _encoders self /\
   (forall e, res od = Raise e -> _decoders (state od) = _decoders self)).
Proof.
  cbv zeta. rewrite register_encoder_unfold, register_decoder_unfold.
  split.
  - destruct (_register_coder_frame Encoders lookup coder label
                (set_cache Encoders [] self)) as (He & Hd & Ho & Hr).
    pose proof (Ho Decoders ltac:(discriminate)) as Hother.
    split; [exact He|]. split; [exact Hd|]. split; [exact Hother|].
    intros e H. exact (Hr e H).
  - destruct (_register_coder_frame Decoders lookup coder label
                (set_cache Decoders [] self)) as (He & Hd & Ho & Hr).
    pose proof (Ho Encoders ltac:(discriminate)) as Hother.
    split; [exact Hd|]. split; [exact He|]. split; [exact Hother|].
    intros e H. exact (Hr e H).
Qed.

Lemma unregister_encoder_unfold (lookup_or_label : Lookup) (self : ABIRegistry) :
  unregister_encoder lookup_or_label self =
  _unregister_coder Encoders lookup_or_label (set_cache Encoders [] self).
Proof. apply cache_clear_spec. Qed.

Lemma unregister_decoder_unfold (lookup_or_label : Lookup) (self : ABIRegistry) :
  unregister_decoder lookup_or_label self =
  _unregister_coder Decoders lookup_or_label (set_cache Decoders [] self).
Proof. apply cache_clear_spec. Qed.

(** What a successful string-keyed registration on one side stores, and
    what removing by that string does to any registry whose mapping on that
    side is the one the registration left. *)
Lemma str_round_trip (sd : side) (s : string) (coder : pyobject)
    (label : option string) (self self1 : ABIRegistry) :
  let o1 := _register_coder sd (Str s) coder label self in
  let p := Pred (next_address self) (Equals s) in
  res o1 = Ok tt ->
  mapping sd self1 = mapping sd (state o1) ->
  let o2 := _unregister_coder sd (Str s) self1 in
  Dict.get key_eqb p (_values (mapping sd (state o1))) = Some coder /\
  Dict.get String.eqb s (_labeled_predicates (mapping sd (state o1))) = Some p /\
  res o2 = Ok tt /\
  mapping sd (state o2) = mapping sd self /\
  (forall sd', sd' <> sd -> mapping sd' (state o2) = mapping sd' self1).
Proof.
  cbv zeta. intros H H1. apply _register_coder_ok in H.
  destruct H as (q & l & (-> & ->) & Hp & Hl & Hs).
  rewrite Hs. cbn [_values _labeled_predicates].
  split; [apply dict_get_last; [apply key_eqb_refl | exact Hp]|].
  split; [apply dict_get_last; [apply String.eqb_refl | exact Hl]|].
  unfold _unregister_coder, on_mapping.
  cbn [res state]. rewrite H1, Hs.
  destruct (remove_by_label_last (_name (mapping sd self)) s
              (Pred (next_address self) (Equals s)) coder
              (_values (mapping sd self))
              (_labeled_predicates (mapping sd self)) Hp Hl) as (Hr & Hst).
  rewrite Hr, Hst, mapping_set_mapping, mapping_eta.
  split; [reflexivity|]. split; [reflexivity|].
  intros sd' Hne. now apply mapping_set_mapping_other.
Qed.

Lemma bind_Ok (S A B : Type) (m : M S A) (k : A -> M S B) (s : S) (b : B) :
  res ((x <- m ;; k x) s) = Ok b ->
  exists a, res (m s) = Ok a /\
            res (k a (state (m s))) = Ok b /\
            state ((x <- m ;; k x) s) = state (k a (state (m s))).
Proof.
  unfold bind. destruct (res (m s)) as [a|e]; simpl; [|discriminate].
  intros H. exists a. auto.
Qed.

Lemma bind_Raise_second (S A B : Type) (m : M S A) (k : A -> M S B) (s : S)
    (a : A) (e : exn) :
  res (m s) = Ok a ->
  res (k a (state (m s))) = Raise e ->
  res ((x <- m ;; k x) s) = Raise e /\
  state ((x <- m ;; k x) s) = state (k a (state (m s))).
Proof. unfold bind. intros -> H. simpl. auto. Qed.

(** Once a registration under the string [s] has returned (encoder side,
    decoder side, or both through [register]), unregistering by [s]
    succeeds and gives back the mapping as it was before the registration,
    leaving the other side alone. *)
Lemma str_round_trip_if_registered (s : string) (encoder decoder : pyobject)
    (self : ABIRegistry) :
  let p := Pred (next_address self) (Equals s) in
  (let o1 := register_encoder (Str s) encoder None self in
   let o2 := unregister_encoder (Str s) (state o1) in
   res o1 = Ok tt ->
   Dict.get key_eqb p (_values (_encoders (state o1))) = Some encoder /\
   Dict.get String.eqb s (_labeled_predicates (_encoders (state o1))) = Some p /\
   res o2 = Ok tt /\
   _encoders (state o2) = _encoders self /\
   _decoders (state o2) = _decoders (state o1)) /\
  (let o1 := register_decoder (Str s) decoder None self in
   let o2 := unregister_decoder (Str s) (state o1) in
   res o1 = Ok tt ->
   Dict.get key_eqb p (_values (_decoders (state o1))) = Some decoder /\
   Dict.get String.eqb s (_labeled_predicates (_decoders (state o1))) = Some p /\
   res o2 = Ok tt /\
   _decoders (state o2) = _decoders self /\
   _encoders (state o2) = _encoders (state o1)) /\
  (let o1 := register (Str s) encoder decoder None self in
   let o2 := unregister_encoder (Str s) (state o1) in
   let o3 := unregister_decoder (Str s) (state o1) in
   res o1 = Ok tt ->
   res o2 = Ok tt /\
   _encoders (state o2) = _encoders self /\
   _decoders (state o2) = _decoders (state o1) /\
   res o3 = Ok tt /\
   _decoders (state o3) = _decoders self /\
   _encoders (state o3) = _encoders (state o1)).
Proof.
  cbv zeta. split; [|split].
  - rewrite register_encoder_unfold, unregister_encoder_unfold. intros H.
    destruct (str_round_trip Encoders s encoder None
                (set_cache Encoders [] self) _ H
                (mapping_set_cache Encoders Encoders [] _))
      as (Hv & Hl & Hr & Hm & Ho).
    split; [exact Hv|]. split; [exact Hl|]. split; [exact Hr|].
    split; [exact Hm|]. exact (Ho Decoders ltac:(discriminate)).
  - rewrite register_decoder_unfold, unregister_decoder_unfold. intros H.
    destruct (str_round_trip Decoders s decoder None
                (set_cache Decoders [] self) _ H
                (mapping_set_cache Decoders Decoders [] _))
      as (Hv & Hl & Hr & Hm & Ho).
    split; [exact Hv|]. split; [exact Hl|]. split; [exact Hr|].
    split; [exact Hm|]. exact (Ho Encoders ltac:(discriminate)).
  - unfold register. intros H. apply bind_Ok in H.
    destruct H as ([] & He & Hd & Hst). rewrite Hst. clear Hst.
    rewrite register_encoder_unfold in He, Hd.
    rewrite register_decoder_unfold in Hd.
    rewrite register_encoder_unfold.
    rewrite register_decoder_unfold.
    rewrite unregister_encoder_unfold, unregister_decoder_unfold.
    set (s1 := state (_register_coder Encoders (Str s) encoder None
                        (set_cache Encoders [] self))) in *.
    set (s2 := state (_register_coder Decoders (Str s) decoder None
                        (set_cache Decoders [] s1))).
    destruct (_register_coder_frame Encoders (Str s) encoder None
                (set_cache Encoders [] self)) as (_ & _ & Foe & _).
    destruct (_register_coder_frame Decoders (Str s) decoder None
                (set_cache Decoders [] s1)) as (_ & _ & Fod & _).
    fold s1 in Foe. fold s2 in Fod.
    pose proof (Foe Decoders ltac:(discriminate)) as Hdec1.
    pose proof (Fod Encoders ltac:(discriminate)) as Henc2.
    cbn [mapping set_cache _encoders _decoders] in Hdec1, Henc2.
    assert (Hn : next_address s1 = S (next_address self)) by reflexivity.
    destruct (str_round_trip Encoders s encoder None
                (set_cache Encoders [] self) (set_cache Encoders [] s2) He)
      as (_ & _ & Hr & Hm & Ho); [exact Henc2|].
    destruct (str_round_trip Decoders s decoder None
                (set_cache Decoders [] s1) (set_cache Decoders [] s2) Hd)
      as (_ & _ & Hr' & Hm' & Ho'); [reflexivity|].
    split; [exact Hr|]. split; [exact Hm|].
    split; [exact (Ho Decoders ltac:(discriminate))|].
    split; [exact Hr'|].
    split; [exact (eq_trans Hm' Hdec1)|].
    exact (Ho' Encoders ltac:(discriminate)).
Qed.

(** C7: when the encoder half of [register] succeeds and the decoder half
    raises, [register] raises that same exception and the registry keeps
    the new encoder entry: the encoder mapping is the one
    [register_encoder] produced, with the entry appended, while the decoder
    mapping is the one before the call. *)
Theorem register_is_not_transactional (lookup : Lookup)
    (encoder decoder : pyobject) (label : option string)
    (self : ABIRegistry) (e : exn) :
  let o1 := register_encoder lookup encoder label self in
  let o2 := register_decoder lookup decoder label (state o1) in
  let o := register lookup encoder decoder label self in
  res o1 = Ok tt ->
  res o2 = Raise e ->
  res o = Raise e /\
  _encoders (state o) = _encoders (state o1) /\
  _decoders (state o) = _decoders self /\
  exists p,
    match lookup with
    | Callable q => p = q
    | Str s => p = Pred (next_address self) (Equals s)
    | Other _ => False
    end /\
    Dict.mem key_eqb p (_values (_encoders self)) = false /\
    _values (_encoders (state o)) = _values (_encoders self) ++ [(p, encoder)] /\
    Dict.get key_eqb p (_values (_encoders (state o))) = Some encoder.
Proof.
  cbv zeta. intros H1 H2.
  destruct (bind_Raise_second _ _ _
              (register_encoder lookup encoder label)
              (fun _ => register_decoder lookup decoder label)
              self tt e H1 H2) as (Hr & Hst).
  unfold register. rewrite Hst. split; [exact Hr|]. clear Hr Hst.
  rewrite register_decoder_unfold in *.
  rewrite register_encoder_unfold in *.
  set (s1 := state (_register_coder Encoders lookup encoder label
                      (set_cache Encoders [] self))) in *.
  set (s2 := state (_register_coder Decoders lookup decoder label
                      (set_cache Decoders [] s1))).
  destruct (_register_coder_frame Decoders lookup decoder label
              (set_cache Decoders [] s1)) as (_ & _ & Fo & Fr).
  assert (Henc : _encoders s2 = _encoders s1)
    by exact (Fo Encoders ltac:(discriminate)).
  assert (Hdec : _decoders s2 = _decoders s1) by exact (Fr e H2).
  destruct (_register_coder_frame Encoders lookup encoder label
              (set_cache Encoders [] self)) as (_ & _ & Fo1 & _).
  assert (Hdec1 : _decoders s1 = _decoders self)
    by exact (Fo1 Decoders ltac:(discriminate)).
  rewrite Henc, Hdec, Hdec1.
  split; [reflexivity|]. split; [reflexivity|].
  apply _register_coder_ok in H1.
  destruct H1 as (p & l & Hl & Hp & _ & Hs).
  assert (Hs' : _values (_encoders s1) = _values (_encoders self) ++ [(p, encoder)])
    by exact (f_equal _values Hs).
  exists p.
  split; [destruct lookup as [q|s|x];
          [exact (proj1 Hl) | exact (proj1 Hl) | exact Hl]|].
  split; [exact Hp|].
  rewrite Hs'. split; [reflexivity|].
  apply dict_get_last; [apply key_eqb_refl | exact Hp].
Qed.

(** ** Resolution failures *)

Lemma set_mapping_same (sd : side) (self : ABIRegistry) :
  set_mapping sd (mapping sd self) self = self.
Proof. now destruct sd, self. Qed.

Lemma no_matching_is_flagged (type_str name : string) :
  contains "No matching" (no_matching_entries type_str name) = true.
Proof. reflexivity. Qed.

(** What [_get_coder] does with a [ValueError] of [find] whose message
    holds the text ["No matching"]: it parses the type string once more; a
    string the grammar rejects surfaces as [ParseError], any other as the
    original error. *)
Lemma flagged_error_is_reparsed
    (self_get : side -> string -> M ABIRegistry pyobject) (sd : side)
    (type_str msg : string) (self : ABIRegistry) :
  let o := _get_coder self_get sd type_str self in
  res (find type_str (mapping sd self)) = Raise (ValueError msg) ->
  contains "No matching" msg = true ->
  events o = events (find type_str (mapping sd self)) ++ [EvParse type_str] /\
  res o = match parse type_str with
          | Some _ => Raise (ValueError msg)
          | None => Raise (ParseError type_str)
          end /\
  state o = self.
Proof.
  cbv zeta. intros H Hc.
  destruct (find_cases type_str (mapping sd self)) as (Hs & _ & _).
  cbv zeta in Hs.
  unfold _get_coder, try_except, on_mapping, bind. cbn [res state events].
  rewrite H, Hc, Hs, set_mapping_same.
  unfold emit, grammar_parse, bind, after, raise. cbn.
  destruct (parse type_str); cbn; auto.
Qed.

(** The no-match error of [find] is such an error. *)
Lemma no_match_is_reparsed
    (self_get : side -> string -> M ABIRegistry pyobject) (sd : side)
    (type_str : string) (self : ABIRegistry) :
  let no_match :=
    ValueError (no_matching_entries type_str (_name (mapping sd self))) in
  let o := _get_coder self_get sd type_str self in
  res (find type_str (mapping sd self)) = Raise no_match ->
  events o = events (find type_str (mapping sd self)) ++ [EvParse type_str] /\
  res o = match parse type_str with
          | Some _ => Raise no_match
          | None => Raise (ParseError type_str)
          end /\
  state o = self.
Proof.
  cbv zeta. intros H.
  apply flagged_error_is_reparsed; [exact H | apply no_matching_is_flagged].
Qed.

(** Any other [ValueError] of [find] passes through unparsed. *)
Lemma unflagged_error_is_not_reparsed
    (self_get : side -> string -> M ABIRegistry pyobject) (sd : side)
    (type_str msg : string) (self : ABIRegistry) :
  res (find type_str (mapping sd self)) = Raise (ValueError msg) ->
  contains "No matching" msg = false ->
  _get_coder self_get sd type_str self =
  Out (events (find type_str (mapping sd self))) (Raise (ValueError msg)) self.
Proof.
  intros H Hc.
  destruct (find_cases type_str (mapping sd self)) as (Hs & _ & _).
  cbv zeta in Hs.
  unfold _get_coder, try_except, on_mapping, bind. cbn [res state events].
  rewrite H, Hc, Hs, set_mapping_same.
  unfold raise, after. cbn. now rewrite app_nil_r.
Qed.

(** A value that [find] returns is not reparsed either: the only calls
    [_get_coder] adds are those of [from_type_str], for a coder class. *)
Lemma resolved_is_not_reparsed
    (self_get : side -> string -> M ABIRegistry pyobject) (sd : side)
    (type_str : string) (coder : pyobject) (self : ABIRegistry) :
  res (find type_str (mapping sd self)) = Ok coder ->
  events (_get_coder self_get sd type_str self) =
  events (find type_str (mapping sd self)) ++
  match coder with
  | CoderClass cls =>
      EvFromTypeStr cls type_str ::
      events (from_type_str cls type_str self_get self)
  | _ => []
  end.
Proof.
  intros H.
  destruct (find_cases type_str (mapping sd self)) as (Hs & _ & _).
  cbv zeta in Hs.
  unfold _get_coder, try_except, on_mapping, bind. cbn [res state events].
  rewrite H, Hs, set_mapping_same.
  unfold ret, emit, after. cbn.
  destruct coder; cbn; rewrite ?app_nil_r; reflexivity.
Qed.

(** A miss of the cache on which the method raises: the exception passes
    through the [lru_cache] wrapper and nothing is stored. *)
Lemma lru_cached_raise (fuel : nat) (sd : side) (type_str : string)
    (self : ABIRegistry) (e : exn) :
  let g := _get_coder (lru_cached fuel) sd type_str self in
  let o := lru_cached (S fuel) sd type_str self in
  Dict.get String.eqb type_str (cache sd self) = None ->
  res g = Raise e ->
  events o = events g /\ res o = Raise e /\ state o = state g.
Proof.
  cbv zeta. intros Hc Hr. cbn [lru_cached]. rewrite Hc.
  unfold bind. rewrite Hr. cbn [events res state]. auto.
Qed.

(** C2 at a failing input: two always-true predicates are registered and
    the type string is ["No matching"]. [find] raises its multiple-match
    error, whose message quotes the type string; [get_encoder] takes the
    quoted text for the no-match marker, runs the grammar parser, and a
    string the grammar rejects surfaces as [ParseError]. *)
Theorem ambiguous_match_is_reparsed :
  let always := Function (fun _ => ([], true)) in
  let p1 := Pred 60 always in
  let p2 := Pred 61 always in
  let T := "No matching" in
  let self :=
    state ((register_encoder (Callable p1) (PlainCallable 70) None ;;
            register_encoder (Callable p2) (PlainCallable 71) None)
             (ABIRegistry_init Static.first_free)) in
  let ambiguous :=
    ValueError (multiple_matching_entries T "encoder registry" [p1; p2]) in
  let o := get_encoder 1 T self in
  res (find T (_encoders self)) = Raise ambiguous /\
  events o = [EvCall 60 T; EvCall 61 T; EvParse T] /\
  res o = match parse T with
          | Some _ => Raise ambiguous
          | None => Raise (ParseError T)
          end.
Proof.
  cbv zeta.
  set (self := state _).
  set (msg := multiple_matching_entries _ _ _).
  assert (Hf : res (find "No matching" (mapping Encoders self)) =
               Raise (ValueError msg)) by (vm_compute; reflexivity).
  assert (Hc : contains "No matching" msg = true) by (vm_compute; reflexivity).
  split; [exact Hf|].
  destruct (flagged_error_is_reparsed (lru_cached 0) Encoders "No matching"
              msg self Hf Hc) as (He & Hr & _).
  assert (Hmiss : Dict.get String.eqb "No matching" (cache Encoders self) = None)
    by reflexivity.
  unfold get_encoder.
  destruct (parse "No matching") as [t|];
    destruct (lru_cached_raise 0 Encoders "No matching" self _ Hmiss Hr)
      as (He' & Hr' & _);
    rewrite He', Hr', He; split; reflexivity.
Qed.

End RegistryFacts.

(** ** Removal by an equal object *)

Section RemovalFacts.
Context {env : Collaborators}.

(** C4 at a failing input: a [BaseEquals('uint')] object is stored under
    the label ["uint"], and [remove_by_equality] is called with another,
    equal [BaseEquals('uint')] object. The entry leaves the primary index,
    but [_label_for_predicate] compares with [is] and finds no label, so the
    label stays behind, bound to a predicate that is no longer stored; a
    later [remove_by_label] of it raises a bare [KeyError] and a later [add]
    under it is refused. Called with the stored object itself, the same
    method does drop the label. *)
Theorem remove_by_equality_keeps_label :
  let stored := Pred 40 (BaseEquals "uint" None) in
  let probe := Pred 60 (BaseEquals "uint" None) in
  let coder := CoderClass Static.UnsignedIntegerEncoder in
  let m0 := state (add stored coder (Some "uint")
                     (PredicateMapping_init "encoder registry")) in
  let o := remove_by_equality probe m0 in
  (py_eq stored probe = true /\ py_is stored probe = false) /\
  (_values m0 = [(stored, coder)] /\
   _labeled_predicates m0 = [("uint", stored)]) /\
  (res o = Ok tt /\
   _values (state o) = [] /\
   _labeled_predicates (state o) = [("uint", stored)]) /\
  res (remove_by_label "uint" (state o)) = Raise (KeyErrorRaw (PredKey stored)) /\
  (exists msg, res (add probe coder (Some "uint") (state o)) =
               Raise (ValueError msg)) /\
  _labeled_predicates (state (remove_by_equality stored m0)) = [].
Proof.
  cbv zeta.
  split; [split; reflexivity|].
  split; [split; reflexivity|].
  split; [repeat split; reflexivity|].
  split; [reflexivity|].
  split; [eexists; reflexivity | reflexivity].
Qed.

End RemovalFacts.

(** * Further properties *)

(** ** More facts about dicts *)

Section DictSplit.
Variables K V : Type.
Variable eqb : K -> K -> bool.

Lemma dict_mem_false_Forall (k : K) (d : list (K * V)) :
  Dict.mem eqb k d = false <-> Forall (fun x => eqb (fst x) k = false) d.
Proof.
  unfold Dict.mem. induction d as [|[k' v'] d IH]; simpl.
  - split; [constructor | reflexivity].
  - destruct (eqb k' k) eqn:E.
    + split; [discriminate|]. intros H. inversion H; subst. simpl in *.
      congruence.
    + rewrite IH. split; [now constructor | intros H; now inversion H].
Qed.

Lemma dict_del_None (k : K) (d : list (K * V)) :
  Dict.del eqb k d = None <-> Dict.mem eqb k d = false.
Proof.
  unfold Dict.mem. induction d as [|[k' v'] d IH]; simpl; [tauto|].
  destruct (eqb k' k); [split; discriminate|].
  rewrite <- IH. destruct (Dict.del eqb k d); split; congruence.
Qed.

Lemma dict_del_split (k : K) (d d' : list (K * V)) :
  Dict.del eqb k d = Some d' ->
  exists pre k' v post,
    d = pre ++ (k', v) :: post /\ d' = pre ++ post /\ eqb k' k = true /\
    Forall (fun x => eqb (fst x) k = false) pre.
Proof.
  revert d'. induction d as [|[k0 v0] d IH]; simpl; [discriminate|].
  intros d'. destruct (eqb k0 k) eqn:E.
  - intros H. inversion H; subst. exists [], k0, v0, d'. auto.
  - destruct (Dict.del eqb k d) as [r|]; [|discriminate].
    intros H. inversion H; subst.
    destruct (IH r eq_refl) as (pre & k' & v & post & -> & -> & Hk & Hpre).
    exists ((k0, v0) :: pre), k', v, post. repeat split; auto.
Qed.

Lemma dict_get_In (k : K) (v : V) (d : list (K * V)) :
  Dict.get eqb k d = Some v -> exists k', In (k', v) d /\ eqb k' k = true.
Proof.
  induction d as [|[k0 v0] d IH]; simpl; [discriminate|].
  destruct (eqb k0 k) eqn:E.
  - intros H. inversion H; subst. exists k0. auto.
  - intros H. destruct (IH H) as (k' & Hin & Hk). exists k'. auto.
Qed.

Lemma dict_get_mem (k : K) (d : list (K * V)) :
  Dict.get eqb k d = None <-> Dict.mem eqb k d = false.
Proof. unfold Dict.mem. destruct (Dict.get eqb k d); split; congruence. Qed.

Lemma distinct_keys_snoc (k : K) (v : V) (d : list (K * V)) :
  distinct_keys eqb d -> Dict.mem eqb k d = false ->
  distinct_keys eqb (d ++ [(k, v)]).
Proof.
  rewrite dict_mem_false_Forall.
  induction d as [|[k0 v0] d IH]; simpl; [auto|].
  intros [Hf Hd] Hm. inversion Hm; subst. simpl in *.
  split; [|now apply IH].
  apply Forall_app. split; [exact Hf | now constructor].
Qed.

Lemma distinct_keys_drop (x : K * V) (pre post : list (K * V)) :
  distinct_keys eqb (pre ++ x :: post) -> distinct_keys eqb (pre ++ post).
Proof.
  induction pre as [|[k0 v0] pre IH]; simpl.
  - destruct x. tauto.
  - intros [Hf Hd]. split; [|now apply IH].
    apply Forall_app in Hf. destruct Hf as [H1 H2]. inversion H2; subst.
    apply Forall_app. auto.
Qed.

(** In a dict with distinct keys, a stored key is found at its own entry. *)
Lemma distinct_keys_locate (k : K) (v : V) (d : list (K * V)) :
  eqb k k = true -> distinct_keys eqb d -> In (k, v) d ->
  exists pre post,
    d = pre ++ (k, v) :: post /\
    Dict.get eqb k d = Some v /\
    Dict.del eqb k d = Some (pre ++ post).
Proof.
  intros Hr. induction d as [|[k0 v0] d IH]; simpl; [intros _ []|].
  intros [Hf Hd] [Heq|Hin].
  - inversion Heq; subst. rewrite Hr. exists [], d. auto.
  - rewrite Forall_forall in Hf. pose proof (Hf (k, v) Hin) as E.
    simpl in E. rewrite E.
    destruct (IH Hd Hin) as (pre & post & -> & Hg & Hdel).
    rewrite Hg, Hdel. exists ((k0, v0) :: pre), post. auto.
Qed.

Hypothesis eqb_sym : forall a b, eqb a b = eqb b a.

Lemma distinct_keys_gone (k : K) (v : V) (pre post : list (K * V)) :
  distinct_keys eqb (pre ++ (k, v) :: post) ->
  Dict.mem eqb k (pre ++ post) = false.
Proof.
  intros H. apply dict_mem_false_Forall. apply Forall_app.
  induction pre as [|[k0 v0] pre IH]; simpl in *.
  - destruct H as [Hf _]. split; [constructor|].
    rewrite Forall_forall in *. intros x Hx. rewrite eqb_sym. now apply Hf.
  - destruct H as [Hf Hd]. destruct (IH Hd) as [H1 H2].
    split; [|exact H2]. constructor; [|exact H1].
    apply Forall_app in Hf. destruct Hf as [_ Hf]. now inversion Hf.
Qed.

End DictSplit.

Lemma py_is_sym (p q : Predicate) : py_is p q = py_is q p.
Proof. unfold py_is. apply Nat.eqb_sym. Qed.

Lemma option_bool_eqb_sym (x y : option bool) :
  option_eqb Bool.eqb x y = option_eqb Bool.eqb y x.
Proof. now destruct x as [[|]|], y as [[|]|]. Qed.

Lemma py_eq_sym (p q : Predicate) : py_eq p q = py_eq q p.
Proof.
  unfold py_eq. destruct (code p), (code q); try reflexivity.
  - apply String.eqb_sym.
  - now rewrite String.eqb_sym, option_bool_eqb_sym.
  - apply py_is_sym.
Qed.

Lemma key_eqb_sym (p q : Predicate) : key_eqb p q = key_eqb q p.
Proof. unfold key_eqb. now rewrite py_is_sym, py_eq_sym. Qed.

(** ** Removal from a [PredicateMapping] *)

Lemma bind_run (S A B : Type) (m : M S A) (k : A -> M S B) (s : S) :
  (x <- m ;; k x) s =
  match m s with
  | Out evs (Ok a) s' => after evs (k a s')
  | Out evs (Raise e) s' => Out evs (Raise e) s'
  end.
Proof. unfold bind. now destruct (m s) as [evs [a|e] s']. Qed.

Lemma try_except_run (S A B : Type) (body : M S A)
    (handler : exn -> option (M S B)) (orelse : A -> M S B) (s : S) :
  try_except body handler orelse s =
  match body s with
  | Out evs (Ok a) s' => after evs (orelse a s')
  | Out evs (Raise e) s' =>
      match handler e with
      | Some h => after evs (h s')
      | None => Out evs (Raise e) s'
      end
  end.
Proof. unfold try_except. now destruct (body s) as [evs [a|e] s']. Qed.

Section RemovalRuns.
Context {env : Collaborators}.

Lemma del_values_run (p : Predicate) (self : PredicateMapping) :
  del_values p self =
  match Dict.del key_eqb p (_values self) with
  | Some vs => Out [] (Ok tt) (set_values vs self)
  | None => Out [] (Raise (KeyErrorRaw (PredKey p))) self
  end.
Proof.
  unfold del_values. rewrite bind_run. cbn.
  destruct (Dict.del key_eqb p (_values self)); reflexivity.
Qed.

Lemma del_labeled_predicates_run (label : string) (self : PredicateMapping) :
  del_labeled_predicates label self =
  match Dict.del String.eqb label (_labeled_predicates self) with
  | Some ls => Out [] (Ok tt) (set_labeled_predicates ls self)
  | None => Out [] (Raise (KeyErrorRaw (StrKey label))) self
  end.
Proof.
  unfold del_labeled_predicates. rewrite bind_run. cbn.
  destruct (Dict.del String.eqb label (_labeled_predicates self)); reflexivity.
Qed.

(** [remove_by_label], branch by branch. *)
Lemma remove_by_label_run (label : string) (self : PredicateMapping) :
  remove_by_label label self =
  match Dict.get String.eqb label (_labeled_predicates self) with
  | None =>
      Out [] (Raise (KeyError (fmt ["Label '"; label; "' not found in ";
                                     _name self]))) self
  | Some p =>
      match Dict.del String.eqb label (_labeled_predicates self) with
      | None => Out [] (Raise (KeyErrorRaw (StrKey label))) self
      | Some ls =>
          match Dict.del key_eqb p (_values self) with
          | None =>
              Out [] (Raise (KeyErrorRaw (PredKey p)))
                  (set_labeled_predicates ls self)
          | Some vs =>
              Out [] (Ok tt) (set_values vs (set_labeled_predicates ls self))
          end
      end
  end.
Proof.
  unfold remove_by_label. rewrite bind_run. cbn [get].
  destruct (Dict.get String.eqb label (_labeled_predicates self)) as [p|].
  - rewrite after_nil, bind_run. cbn [ret]. rewrite after_nil, bind_run.
    rewrite del_labeled_predicates_run.
    destruct (Dict.del String.eqb label (_labeled_predicates self)) as [ls|];
      [|reflexivity].
    rewrite after_nil, del_values_run. cbn [_values set_labeled_predicates].
    destruct (Dict.del key_eqb p (_values self)); reflexivity.
  - rewrite after_nil, bind_run. reflexivity.
Qed.

(** [remove_by_equality], branch by branch. *)
Lemma remove_by_equality_run (p : Predicate) (self : PredicateMapping) :
  remove_by_equality p self =
  match Dict.del key_eqb p (_values self) with
  | None =>
      Out [] (Raise (KeyError (fmt ["Matcher "; repr p; " not found in ";
                                     _name self]))) self
  | Some vs =>
      match label_scan p (_labeled_predicates self) with
      | None => Out [] (Ok tt) (set_values vs self)
      | Some label =>
          match Dict.del String.eqb label (_labeled_predicates self) with
          | Some ls =>
              Out [] (Ok tt) (set_labeled_predicates ls (set_values vs self))
          | None =>
              Out [] (Raise (KeyErrorRaw (StrKey label))) (set_values vs self)
          end
      end
  end.
Proof.
  unfold remove_by_equality. rewrite bind_run. cbn [get].
  rewrite after_nil, bind_run, try_except_run, del_values_run.
  destruct (Dict.del key_eqb p (_values self)) as [vs|]; [|reflexivity].
  cbn [except_KeyError ret after events res state app].
  rewrite try_except_run.
  destruct (_label_for_predicate_run p (set_values vs self)) as (msg & ->).
  cbn [_labeled_predicates set_values].
  destruct (label_scan p (_labeled_predicates self)) as [label|];
    [|reflexivity].
  rewrite after_nil, after_nil, del_labeled_predicates_run.
  cbn [_labeled_predicates set_values].
  destruct (Dict.del String.eqb label (_labeled_predicates self)); reflexivity.
Qed.

(** X1: [remove_by_label] with a label that is not bound raises the
    "Label ... not found" [KeyError] and changes nothing. When the label is
    bound to a predicate that the primary index does not hold, the label is
    deleted first and the [del] on the primary index then raises a bare
    [KeyError] carrying the predicate: the label is gone although the call
    failed. *)
Theorem remove_by_label_failures (label : string) (self : PredicateMapping) :
  (Dict.mem String.eqb label (_labeled_predicates self) = false ->
   remove_by_label label self =
   Out [] (Raise (KeyError (fmt ["Label '"; label; "' not found in ";
                                  _name self]))) self) /\
  (forall p,
     Dict.get String.eqb label (_labeled_predicates self) = Some p ->
     Dict.mem key_eqb p (_values self) = false ->
     exists ls,
       Dict.del String.eqb label (_labeled_predicates self) = Some ls /\
       remove_by_label label self =
       Out [] (Raise (KeyErrorRaw (PredKey p)))
           (Mapping (_name self) (_values self) ls)).
Proof.
  split.
  - intros H. apply dict_get_mem in H. now rewrite remove_by_label_run, H.
  - intros p Hg Hm. rewrite remove_by_label_run, Hg.
    destruct (Dict.del String.eqb label (_labeled_predicates self)) as [ls|]
      eqn:Hd.
    + exists ls. split; [reflexivity|].
      apply dict_del_None in Hm. now rewrite Hm.
    + apply dict_del_None, dict_get_mem in Hd. congruence.
Qed.

(** X2: [remove_by_equality] with a predicate that no stored predicate
    equals raises the "Matcher ... not found" [KeyError] and changes
    nothing. *)
Theorem remove_by_equality_missing (p : Predicate) (self : PredicateMapping) :
  Dict.mem key_eqb p (_values self) = false ->
  remove_by_equality p self =
  Out [] (Raise (KeyError (fmt ["Matcher "; repr p; " not found in ";
                                 _name self]))) self.
Proof.
  intros H. apply dict_del_None in H. now rewrite remove_by_equality_run, H.
Qed.

End RemovalRuns.

(** ** The invariant is kept *)

Lemma well_formed_init (name : string) : well_formed (PredicateMapping_init name).
Proof. split; simpl; auto; [intros l p [] | constructor]. Qed.

Lemma distinct_values_id_inj (d : list (Predicate * pyobject))
    (p q : Predicate) (v w : pyobject) :
  distinct_keys key_eqb d -> In (p, v) d -> In (q, w) d -> id p = id q ->
  (p, v) = (q, w).
Proof.
  assert (Hne : forall a b, key_eqb a b = false -> id a <> id b).
  { intros a b H E. unfold key_eqb, py_is in H. rewrite E, Nat.eqb_refl in H.
    discriminate. }
  induction d as [|[k0 v0] d IH]; simpl; [intros _ []|].
  intros [Hf Hd] [Hp|Hp] [Hq|Hq] E.
  - congruence.
  - inversion Hp; subst. rewrite Forall_forall in Hf.
    exfalso. exact (Hne _ _ (Hf _ Hq) E).
  - inversion Hq; subst. rewrite Forall_forall in Hf.
    exfalso. exact (Hne _ _ (Hf _ Hp) (eq_sym E)).
  - now apply IH.
Qed.

Lemma label_scan_unique (l : string) (p : Predicate)
    (ls : list (string * Predicate)) :
  NoDup (map (fun lp => id (snd lp)) ls) -> In (l, p) ls ->
  label_scan p ls = Some l.
Proof.
  induction ls as [|[k q] ls IH]; simpl; [intros _ []|].
  intros Hn [Heq|Hin].
  - inversion Heq; subst. unfold py_is. now rewrite Nat.eqb_refl.
  - inversion Hn as [|x xs Hx Hn']; subst.
    destruct (py_is q p) eqn:E; [|now apply IH].
    exfalso. apply Hx. unfold py_is in E. apply Nat.eqb_eq in E. rewrite E.
    exact (in_map (fun lp => id (snd lp)) ls (l, p) Hin).
Qed.

Lemma label_scan_Some (l : string) (p : Predicate)
    (ls : list (string * Predicate)) :
  label_scan p ls = Some l -> exists q, In (l, q) ls /\ id q = id p.
Proof.
  induction ls as [|[k q] ls IH]; simpl; [discriminate|].
  destruct (py_is q p) eqn:E.
  - intros H. inversion H; subst. exists q. split; [now left|].
    now apply Nat.eqb_eq.
  - intros H. destruct (IH H) as (q' & Hin & Hid). exists q'. auto.
Qed.

Lemma label_scan_None (p : Predicate) (ls : list (string * Predicate)) :
  label_scan p ls = None -> forall l q, In (l, q) ls -> id q <> id p.
Proof.
  induction ls as [|[k q0] ls IH]; simpl; [intros _ l q []|].
  destruct (py_is q0 p) eqn:E; [discriminate|].
  intros H l q [Heq|Hin].
  - inversion Heq; subst. now apply Nat.eqb_neq.
  - now apply (IH H l).
Qed.

Lemma dict_get_label_In (l : string) (p : Predicate)
    (ls : list (string * Predicate)) :
  Dict.get String.eqb l ls = Some p -> In (l, p) ls.
Proof.
  intros H. destruct (dict_get_In _ _ String.eqb l p ls H) as (l' & Hin & E).
  apply String.eqb_eq in E. now subst.
Qed.

Section WellFormed.
Context {env : Collaborators}.

(** X3: [add] keeps the invariant, whether it succeeds or raises. *)
Theorem add_keeps_well_formed (p : Predicate) (v : pyobject)
    (label : option string) (self : PredicateMapping) :
  well_formed self -> well_formed (state (add p v label self)).
Proof.
  intros [H1 H2 H3 H4].
  destruct (res (add p v label self)) as [[]|e] eqn:Hr.
  - apply add_ok_appends in Hr. destruct Hr as (Hp & Hl & ->).
    assert (Hfresh : forall l q, In (l, q) (_labeled_predicates self) ->
                                 id q <> id p).
    { intros l q Hin E. destruct (H3 l q Hin) as (w & Hw).
      apply dict_mem_false_Forall in Hp. rewrite Forall_forall in Hp.
      specialize (Hp _ Hw). simpl in Hp. unfold key_eqb, py_is in Hp.
      rewrite E, Nat.eqb_refl in Hp. discriminate. }
    split; cbn [_values _labeled_predicates].
    + now apply distinct_keys_snoc.
    + destruct label as [x|]; [now apply distinct_keys_snoc | exact H2].
    + intros l q Hin.
      assert (Hold : In (l, q) (_labeled_predicates self) \/ q = p).
      { destruct label as [x|]; [|now left].
        apply in_app_or in Hin. destruct Hin as [Hin|[Heq|[]]]; [now left|].
        right. congruence. }
      destruct Hold as [Hold| ->].
      * destruct (H3 l q Hold) as (w & Hw). exists w. apply in_or_app. auto.
      * exists v. apply in_or_app. right. now left.
    + destruct label as [x|]; [|exact H4].
      rewrite map_app. simpl.
      apply NoDup_app_remove_l with (l := []). simpl.
      apply NoDup_rev in H4.
      rewrite <- (rev_involutive (map _ _ ++ _)). apply NoDup_rev.
      rewrite rev_app_distr. simpl. constructor; [|exact H4].
      rewrite <- in_rev. intros Hin. apply in_map_iff in Hin.
      destruct Hin as ([l q] & E & Hin). exact (Hfresh l q Hin E).
  - apply add_raise_keeps in Hr. rewrite Hr. now split.
Qed.

Lemma well_formed_removed (name : string) (p : Predicate) (v : pyobject)
    (l : string) (vpre vpost : list (Predicate * pyobject))
    (pre post : list (string * Predicate)) :
  well_formed (Mapping name (vpre ++ (p, v) :: vpost) (pre ++ (l, p) :: post)) ->
  well_formed (Mapping name (vpre ++ vpost) (pre ++ post)) /\
  (forall l', ~ In (l', p) (pre ++ post)).
Proof.
  intros [H1 H2 H3 H4]. cbn [_values _labeled_predicates] in *.
  rewrite map_app in H4. simpl in H4.
  assert (Hgone : forall l', ~ In (l', p) (pre ++ post)).
  { intros l' Hin. apply NoDup_remove_2 in H4. apply H4.
    rewrite <- map_app.
    exact (in_map (fun lp => id (snd lp)) _ (l', p) Hin). }
  split; [|exact Hgone].
  split; cbn [_values _labeled_predicates].
  - exact (distinct_keys_drop _ _ _ _ _ _ H1).
  - exact (distinct_keys_drop _ _ _ _ _ _ H2).
  - intros l' q Hin.
    assert (Hin' : In (l', q) (pre ++ (l, p) :: post)).
    { apply in_app_or in Hin. apply in_or_app. simpl. tauto. }
    destruct (H3 l' q Hin') as (w & Hw).
    exists w. apply in_app_or in Hw. apply in_or_app.
    destruct Hw as [Hw|[Hw|Hw]]; auto.
    inversion Hw; subst. exfalso. exact (Hgone l' Hin).
  - rewrite map_app. exact (NoDup_remove_1 _ _ _ H4).
Qed.

(** X4: on a well-formed mapping [remove_by_label] never fails halfway:
    a bound label is removed together with the predicate it names, nothing
    equal to that predicate and no binding of that label is left, and the
    invariant holds afterwards; an unbound label raises and changes
    nothing. *)
Theorem remove_by_label_well_formed (label : string) (self : PredicateMapping) :
  well_formed self ->
  let o := remove_by_label label self in
  well_formed (state o) /\
  match Dict.get String.eqb label (_labeled_predicates self) with
  | Some p =>
      res o = Ok tt /\
      Dict.mem String.eqb label (_labeled_predicates (state o)) = false /\
      Dict.mem key_eqb p (_values (state o)) = false
  | None => exists msg, res o = Raise (KeyError msg) /\ state o = self
  end.
Proof.
  intros Hwf. cbv zeta. rewrite remove_by_label_run.
  destruct (Dict.get String.eqb label (_labeled_predicates self)) as [p|]
    eqn:Hg.
  - pose proof (dict_get_label_In _ _ _ Hg) as Hin.
    destruct Hwf as [H1 H2 H3 H4].
    destruct (H3 _ _ Hin) as (v & Hv).
    destruct (distinct_keys_locate _ _ String.eqb label p _
                (String.eqb_refl label) H2 Hin)
      as (pre & post & Els & _ & ->).
    destruct (distinct_keys_locate _ _ key_eqb p v _
                (key_eqb_refl p) H1 Hv)
      as (vpre & vpost & Evs & _ & ->).
    cbn [state res].
    assert (Hwf : well_formed (Mapping (_name self)
                                 (vpre ++ (p, v) :: vpost)
                                 (pre ++ (label, p) :: post))).
    { rewrite <- Evs, <- Els, mapping_eta. now split. }
    destruct (well_formed_removed _ _ _ _ _ _ _ _ Hwf) as (Hwf' & _).
    split; [exact Hwf'|]. split; [reflexivity|].
    cbn [_values _labeled_predicates set_values set_labeled_predicates].
    rewrite Els in H2. rewrite Evs in H1. split.
    + exact (distinct_keys_gone _ _ String.eqb String.eqb_sym _ _ _ _ H2).
    + exact (distinct_keys_gone _ _ key_eqb key_eqb_sym _ _ _ _ H1).
  - cbn [state res]. split; [exact Hwf|]. eexists. split; reflexivity.
Qed.

(** X5: on a well-formed mapping [remove_by_equality], given a predicate
    object that is stored, succeeds, removes the entry and the label bound
    to it (if any), and keeps the invariant. *)
Theorem remove_by_equality_stored (p : Predicate) (v : pyobject)
    (self : PredicateMapping) :
  well_formed self ->
  In (p, v) (_values self) ->
  let o := remove_by_equality p self in
  res o = Ok tt /\
  well_formed (state o) /\
  Dict.mem key_eqb p (_values (state o)) = false /\
  (forall l, ~ In (l, p) (_labeled_predicates (state o))).
Proof.
  intros Hwf Hv. cbv zeta. rewrite remove_by_equality_run.
  pose proof Hwf as [H1 H2 H3 H4].
  destruct (distinct_keys_locate _ _ key_eqb p v _ (key_eqb_refl p) H1 Hv)
    as (vpre & vpost & Evs & _ & ->).
  assert (Hmem : Dict.mem key_eqb p (vpre ++ vpost) = false).
  { rewrite Evs in H1.
    exact (distinct_keys_gone _ _ key_eqb key_eqb_sym _ _ _ _ H1). }
  destruct (label_scan p (_labeled_predicates self)) as [l|] eqn:Hs.
  - destruct (label_scan_Some _ _ _ Hs) as (q & Hin & Hid).
    destruct (H3 _ _ Hin) as (w & Hw).
    pose proof (distinct_values_id_inj _ _ _ _ _ H1 Hw Hv Hid) as E.
    inversion E; subst q w. clear E.
    destruct (distinct_keys_locate _ _ String.eqb l p _
                (String.eqb_refl l) H2 Hin)
      as (pre & post & Els & _ & ->).
    cbn [state res].
    assert (Hwf0 : well_formed (Mapping (_name self)
                                  (vpre ++ (p, v) :: vpost)
                                  (pre ++ (l, p) :: post))).
    { now rewrite <- Evs, <- Els, mapping_eta. }
    destruct (well_formed_removed _ _ _ _ _ _ _ _ Hwf0) as (Hwf' & Hgone).
    split; [reflexivity|]. split; [exact Hwf'|]. split; [exact Hmem|].
    exact Hgone.
  - cbn [state res]. pose proof (label_scan_None _ _ Hs) as Hnone.
    split; [reflexivity|].
    split; [|split; [exact Hmem|]].
    + split; cbn [_values _labeled_predicates set_values].
      * rewrite Evs in H1. exact (distinct_keys_drop _ _ _ _ _ _ H1).
      * exact H2.
      * intros l q Hin. destruct (H3 l q Hin) as (w & Hw). exists w.
        rewrite Evs in Hw. apply in_app_or in Hw. apply in_or_app.
        destruct Hw as [Hw|[Hw|Hw]]; auto.
        inversion Hw; subst. exfalso. exact (Hnone l q Hin eq_refl).
      * exact H4.
    + intros l Hin. exact (Hnone l p Hin eq_refl).
Qed.

(** X6: removal symmetry. On a well-formed mapping, [remove] given a bound
    label and [remove] given the predicate object that label is bound to
    do the same thing: both succeed and leave the same mapping. *)
Theorem remove_by_label_or_object (str_type : address -> string)
    (label : string) (p : Predicate) (self : PredicateMapping) :
  well_formed self ->
  Dict.get String.eqb label (_labeled_predicates self) = Some p ->
  remove str_type (Str label) self = remove str_type (Callable p) self /\
  res (remove str_type (Str label) self) = Ok tt.
Proof.
  intros [H1 H2 H3 H4] Hg. unfold remove.
  rewrite remove_by_label_run, remove_by_equality_run, Hg.
  pose proof (dict_get_label_In _ _ _ Hg) as Hin.
  rewrite (label_scan_unique _ _ _ H4 Hin).
  destruct (H3 _ _ Hin) as (v & Hv).
  destruct (distinct_keys_locate _ _ String.eqb label p _
              (String.eqb_refl label) H2 Hin) as (pre & post & _ & _ & ->).
  destruct (distinct_keys_locate _ _ key_eqb p v _ (key_eqb_refl p) H1 Hv)
    as (vpre & vpost & _ & _ & ->).
  split; reflexivity.
Qed.

End WellFormed.

(** ** Resolution after a change of the mapping *)

Section FindAfterChange.
Context {env : Collaborators}.

(** X7: a successful [add] never overrides. For a type string the new
    predicate rejects, [find] answers as before; for one it accepts, [find]
    returns the new value if nothing matched before, and raises the
    multiple-match error (old matches first, the new predicate last) if
    something did. *)
Theorem add_never_overrides (p : Predicate) (v : pyobject)
    (label : option string) (self : PredicateMapping) (type_str : string) :
  res (add p v label self) = Ok tt ->
  let self' := state (add p v label self) in
  let hits := filter (fun pv => accepts (fst pv) type_str) (_values self) in
  if accepts p type_str then
    match hits with
    | [] => res (find type_str self') = Ok v
    | _ :: _ =>
        res (find type_str self') =
        Raise (ValueError (multiple_matching_entries type_str (_name self)
                             (map fst hits ++ [p])))
    end
  else res (find type_str self') = res (find type_str self).
Proof.
  intros H. cbv zeta. apply add_ok_appends in H. destruct H as (_ & _ & ->).
  destruct (find_cases type_str self) as (_ & _ & Hold).
  destruct (find_cases type_str
              (Mapping (_name self) (_values self ++ [(p, v)])
                 (match label with
                  | Some x => _labeled_predicates self ++ [(x, p)]
                  | None => _labeled_predicates self
                  end))) as (_ & _ & Hnew).
  cbv zeta in Hold, Hnew. cbn [_values _name] in Hnew.
  rewrite filter_app in Hnew. cbn [filter fst] in Hnew.
  rewrite Hnew, Hold. clear Hnew Hold.
  destruct (accepts p type_str).
  - rewrite map_app. cbn [map fst].
    destruct (filter _ (_values self)) as [|[q w] [|x rest]]; cbn [app];
      reflexivity.
  - now rewrite app_nil_r.
Qed.

(** After [remove_by_label] on a well-formed mapping, a type string that
    the removed predicate rejects resolves as before, and one that only the
    removed predicate accepted no longer resolves. *)
Lemma remove_by_label_then_find (label : string) (p : Predicate)
    (self : PredicateMapping) (type_str : string) :
  well_formed self ->
  Dict.get String.eqb label (_labeled_predicates self) = Some p ->
  let self' := state (remove_by_label label self) in
  let hits := filter (fun pv => accepts (fst pv) type_str) (_values self) in
  (accepts p type_str = false ->
   res (find type_str self') = res (find type_str self)) /\
  (forall v, hits = [(p, v)] ->
   res (find type_str self') =
   Raise (ValueError (no_matching_entries type_str (_name self)))).
Proof.
  intros [H1 H2 H3 H4] Hg. cbv zeta. rewrite remove_by_label_run, Hg.
  pose proof (dict_get_label_In _ _ _ Hg) as Hin.
  destruct (H3 _ _ Hin) as (v & Hv).
  destruct (distinct_keys_locate _ _ String.eqb label p _
              (String.eqb_refl label) H2 Hin) as (pre & post & _ & _ & ->).
  destruct (distinct_keys_locate _ _ key_eqb p v _ (key_eqb_refl p) H1 Hv)
    as (vpre & vpost & Evs & _ & ->).
  cbn [state].
  destruct (find_cases type_str self) as (_ & _ & Hold).
  destruct (find_cases type_str
              (set_values (vpre ++ vpost)
                 (set_labeled_predicates (pre ++ post) self)))
    as (_ & _ & Hnew).
  cbv zeta in Hold, Hnew.
  cbn [_values _name set_values set_labeled_predicates] in Hnew.
  rewrite Hnew, Hold, Evs, !filter_app. cbn [filter fst].
  clear Hnew Hold. split.
  - intros ->. reflexivity.
  - intros w Hw. destruct (accepts p type_str) eqn:Hacc.
    + destruct (filter _ vpre) as [|a l1]; simpl in Hw.
      * inversion Hw as [[Hv' Hpost]]. rewrite Hpost. reflexivity.
      * inversion Hw as [[Ha Hrest]]. destruct l1; discriminate.
    + exfalso.
      assert (Hi : In (p, w) (filter (fun pv => accepts (fst pv) type_str)
                                (vpre ++ vpost))).
      { rewrite filter_app, Hw. now left. }
      apply filter_In in Hi. simpl in Hi. destruct Hi as [_ Hi]. congruence.
Qed.

End FindAfterChange.

(** ** Predicates *)

Section PredicateFacts.
Context {env : Collaborators}.

Lemma option_bool_eqb_eq (x y : option bool) :
  option_eqb Bool.eqb x y = true -> x = y.
Proof. destruct x as [[|]|], y as [[|]|]; simpl; congruence. Qed.

(** X9: [Predicate.__eq__] is an equivalence, and two equal [Equals] or
    [BaseEquals] objects cannot be told apart by the registry: they accept
    the same type strings and have the same [repr]; two equal functions are
    one object. *)
Theorem equal_predicates_agree (p q r : Predicate) :
  py_eq p p = true /\
  py_eq p q = py_eq q p /\
  (py_eq p q = true -> py_eq q r = true -> py_eq p r = true) /\
  (py_eq p q = true ->
   match code p with
   | Function _ => id p = id q
   | _ => (forall type_str, accepts p type_str = accepts q type_str) /\
          repr p = repr q
   end).
Proof.
  split; [|split; [apply py_eq_sym | split]].
  - unfold py_eq, py_is. destruct (code p) as [a|b s|f].
    + apply String.eqb_refl.
    + rewrite String.eqb_refl. now destruct s as [[|]|].
    + apply Nat.eqb_refl.
  - unfold py_eq, py_is.
    destruct (code p) as [a|b s|f], (code q) as [a'|b' s'|f'],
      (code r) as [a''|b'' s''|f'']; try discriminate.
    + rewrite !String.eqb_eq. congruence.
    + rewrite !andb_true_iff, !String.eqb_eq.
      intros [-> H1] [-> H2]. split; [reflexivity|].
      apply option_bool_eqb_eq in H1, H2. subst. now destruct s'' as [[|]|].
    + rewrite !Nat.eqb_eq. congruence.
  - destruct p as [ip cp], q as [iq cq]. unfold py_eq, py_is. simpl.
    destruct cp as [a|b s|f], cq as [a'|b' s'|f']; try discriminate.
    + rewrite String.eqb_eq. intros ->. split; reflexivity.
    + rewrite andb_true_iff, String.eqb_eq. intros [-> H].
      apply option_bool_eqb_eq in H. subst. split; reflexivity.
    + now rewrite Nat.eqb_eq.
Qed.

Lemma accepts_Function (a : address) (f : string -> list event * bool)
    (type_str : string) :
  accepts (Pred a (Function f)) type_str = snd (f type_str).
Proof. unfold accepts, call. simpl. now destruct (f type_str). Qed.

Lemma accepts_BaseEquals_bool (a : address) (base : string)
    (with_sub : option bool) (type_str : string) :
  accepts (Pred a (BaseEquals base with_sub)) type_str =
  match parse type_str with
  | Some (BasicType abi_base abi_sub None) =>
      match with_sub, abi_sub with
      | Some true, None | Some false, Some _ => false
      | _, _ => String.eqb abi_base base
      end
  | _ => false
  end.
Proof.
  unfold accepts, call, BaseEquals_call, grammar_parse. simpl.
  destruct (parse type_str) as [[b s [dims|]|cs al]|]; try reflexivity.
  now destruct with_sub as [[|]|], s.
Qed.

Lemma has_arrlist_bool (type_str : string) :
  snd (has_arrlist type_str) =
  match parse type_str with
  | Some (BasicType _ _ (Some _)) => true
  | _ => false
  end.
Proof.
  unfold has_arrlist, grammar_parse.
  now destruct (parse type_str) as [[b s [dims|]|cs al]|].
Qed.

Lemma is_tuple_type_bool (type_str : string) :
  snd (is_tuple_type type_str) =
  match parse type_str with
  | Some (TupleType _ _) => true
  | _ => false
  end.
Proof.
  unfold is_tuple_type, grammar_parse.
  now destruct (parse type_str) as [[b s arr|cs al]|].
Qed.

(** X10: [has_arrlist] accepts exactly the strings that parse to a basic
    type carrying an array list, [is_tuple_type] exactly those that parse
    to a tuple type; an unparsable string is rejected by both, and no type
    string is accepted by two of [has_arrlist], [is_tuple_type] and a
    [BaseEquals] object. *)
Theorem structural_predicates (type_str : string) :
  (snd (has_arrlist type_str) = true <->
   exists base sub dims, parse type_str = Some (BasicType base sub (Some dims))) /\
  (snd (is_tuple_type type_str) = true <->
   exists components arrlist,
     parse type_str = Some (TupleType components arrlist)) /\
  (parse type_str = None ->
   snd (has_arrlist type_str) = false /\ snd (is_tuple_type type_str) = false) /\
  (snd (has_arrlist type_str) && snd (is_tuple_type type_str) = false) /\
  (forall a base with_sub,
     accepts (Pred a (BaseEquals base with_sub)) type_str = true ->
     snd (has_arrlist type_str) = false /\ snd (is_tuple_type type_str) = false).
Proof.
  rewrite has_arrlist_bool, is_tuple_type_bool.
  split; [|split; [|split; [|split]]].
  - destruct (parse type_str) as [[b s [dims|]|cs al]|]; split; intros H;
      try discriminate; try reflexivity;
      try (destruct H as (b' & s' & d' & H); discriminate).
    now exists b, s, dims.
  - destruct (parse type_str) as [[b s arr|cs al]|]; split; intros H;
      try discriminate; try reflexivity;
      try (destruct H as (c' & a' & H); discriminate).
    now exists cs, al.
  - now intros ->.
  - now destruct (parse type_str) as [[b s [dims|]|cs al]|].
  - intros a base ws. rewrite accepts_BaseEquals_bool.
    destruct (parse type_str) as [[b s [dims|]|cs al]|]; try discriminate.
    auto.
Qed.

End PredicateFacts.

(** ** The default registry *)

Section DefaultRegistry.
Context {env : Collaborators}.

Lemma default_registry_values (sd : side) :
  let pick (e d : address) :=
    CoderClass (match sd with Encoders => e | Decoders => d end) in
  _name (mapping sd registry) =
    match sd with
    | Encoders => "encoder registry"
    | Decoders => "decoder registry"
    end /\
  _values (mapping sd registry) =
  [ (Pred 40 (BaseEquals "uint" None),
     pick Static.UnsignedIntegerEncoder Static.UnsignedIntegerDecoder);
    (Pred 41 (BaseEquals "int" None),
     pick Static.SignedIntegerEncoder Static.SignedIntegerDecoder);
    (Pred 42 (BaseEquals "address" None),
     pick Static.AddressEncoder Static.AddressDecoder);
    (Pred 43 (BaseEquals "bool" None),
     pick Static.BooleanEncoder Static.BooleanDecoder);
    (Pred 44 (BaseEquals "ufixed" None),
     pick Static.UnsignedFixedEncoder Static.UnsignedFixedDecoder);
    (Pred 45 (BaseEquals "fixed" None),
     pick Static.SignedFixedEncoder Static.SignedFixedDecoder);
    (Pred 46 (BaseEquals "bytes" (Some true)),
     pick Static.BytesEncoder Static.BytesDecoder);
    (Pred 47 (BaseEquals "bytes" (Some false)),
     pick Static.ByteStringEncoder Static.ByteStringDecoder);
    (Pred 48 (BaseEquals "function" None),
     pick Static.BytesEncoder Static.BytesDecoder);
    (Pred 49 (BaseEquals "string" None),
     pick Static.TextStringEncoder Static.StringDecoder);
    (Pred Static.has_arrlist (Function has_arrlist),
     pick Static.BaseArrayEncoder Static.BaseArrayDecoder);
    (Pred Static.is_tuple_type (Function is_tuple_type),
     pick Static.TupleEncoder Static.TupleDecoder) ].
Proof. destruct sd; split; vm_compute; reflexivity. Qed.

(** X11: the dispatch table of the default registry, for every grammar.
    At most one of the twelve bootstrap predicates accepts a type string, so
    [find] never raises the multiple-match error there; what it returns is
    decided by the parse: tuple types go to the tuple coder, basic types
    with an array list to the array coder, basic types without one to the
    coder of their base ([bytes] with a sub to the fixed-size coder, without
    one to the byte-string coder); a string that does not parse, or whose
    base is none of the nine, gets the no-match error. *)
Theorem default_registry_dispatch (sd : side) (type_str : string) :
  let pick (e d : address) :=
    CoderClass (match sd with Encoders => e | Decoders => d end) in
  let self := mapping sd registry in
  let hits := filter (fun pv => accepts (fst pv) type_str) (_values self) in
  let r := res (find type_str self) in
  let no_match :=
    Raise (ValueError (no_matching_entries type_str (_name self))) in
  List.length hits <= 1 /\
  r = match parse type_str with
      | None => no_match
      | Some (TupleType _ _) =>
          Ok (pick Static.TupleEncoder Static.TupleDecoder)
      | Some (BasicType _ _ (Some _)) =>
          Ok (pick Static.BaseArrayEncoder Static.BaseArrayDecoder)
      | Some (BasicType base sub None) =>
          if String.eqb base "uint" then
            Ok (pick Static.UnsignedIntegerEncoder Static.UnsignedIntegerDecoder)
          else if String.eqb base "int" then
            Ok (pick Static.SignedIntegerEncoder Static.SignedIntegerDecoder)
          else if String.eqb base "address" then
            Ok (pick Static.AddressEncoder Static.AddressDecoder)
          else if String.eqb base "bool" then
            Ok (pick Static.BooleanEncoder Static.BooleanDecoder)
          else if String.eqb base "ufixed" then
            Ok (pick Static.UnsignedFixedEncoder Static.UnsignedFixedDecoder)
          else if String.eqb base "fixed" then
            Ok (pick Static.SignedFixedEncoder Static.SignedFixedDecoder)
          else if String.eqb base "bytes" then
            match sub with
            | Some _ => Ok (pick Static.BytesEncoder Static.BytesDecoder)
            | None =>
                Ok (pick Static.ByteStringEncoder Static.ByteStringDecoder)
            end
          else if String.eqb base "function" then
            Ok (pick Static.BytesEncoder Static.BytesDecoder)
          else if String.eqb base "string" then
            Ok (pick Static.TextStringEncoder Static.StringDecoder)
          else no_match
      end.
Proof.
  cbv zeta.
  destruct (find_cases type_str (mapping sd registry)) as (_ & _ & Hr).
  cbv zeta in Hr.
  destruct (default_registry_values sd) as (Hn & Hv). cbv zeta in Hv.
  rewrite Hr, Hn, Hv. clear Hr Hn Hv.
  cbn [filter fst].
  rewrite !accepts_BaseEquals_bool, !accepts_Function, has_arrlist_bool,
    is_tuple_type_bool.
  destruct (parse type_str) as [[base sub [dims|]|cs al]|].
  - split; [cbn; lia | reflexivity].
  - destruct sub as [n|];
      repeat match goal with
             | |- context [String.eqb base ?lit] =>
                 let E := fresh "E" in
                 destruct (String.eqb base lit) eqn:E;
                 [ apply String.eqb_eq in E; subst base;
                   split; [vm_compute; lia | vm_compute; reflexivity]
                 | ]
             end;
      (split; [cbn; lia | reflexivity]).
  - split; [cbn; lia | reflexivity].
  - split; [cbn; lia | reflexivity].
Qed.

End DefaultRegistry.

(** ** Lookups that fail, lookups after a registration *)

Section LookupFacts.
Context {env : Collaborators}.

Lemma find_raises_ValueError (type_str : string) (self : PredicateMapping)
    (e : exn) :
  res (find type_str self) = Raise e -> exists msg, e = ValueError msg.
Proof.
  destruct (find_cases type_str self) as (_ & _ & Hr). cbv zeta in Hr.
  rewrite Hr.
  destruct (filter _ (_values self)) as [|[p v] [|x rest]]; intros H;
    inversion H; eauto.
Qed.

Lemma accepts_Equals (a : address) (value type_str : string) :
  accepts (Pred a (Equals value)) type_str = String.eqb value type_str.
Proof. reflexivity. Qed.

Lemma _get_coder_plain
    (self_get : side -> string -> M ABIRegistry pyobject) (sd : side)
    (type_str : string) (a : address) (self : ABIRegistry) :
  res (find type_str (mapping sd self)) = Ok (PlainCallable a) ->
  _get_coder self_get sd type_str self =
  Out (events (find type_str (mapping sd self))) (Ok (PlainCallable a)) self.
Proof.
  intros H.
  destruct (find_cases type_str (mapping sd self)) as (Hs & _ & _).
  cbv zeta in Hs.
  unfold _get_coder, try_except, on_mapping, bind. cbn [res state events].
  rewrite H, Hs, set_mapping_same.
  unfold ret, after. cbn. now rewrite !app_nil_r.
Qed.

Lemma failed_lookup (fuel : nat) (sd : side) (type_str : string)
    (self : ABIRegistry) (e : exn) :
  Dict.get String.eqb type_str (cache sd self) = None ->
  res (find type_str (mapping sd self)) = Raise e ->
  let o := lru_cached (S fuel) sd type_str self in
  state o = self /\
  (exists e', res o = Raise e') /\
  (e = ValueError (no_matching_entries type_str (_name (mapping sd self))) ->
   res o = match parse type_str with
           | Some _ => Raise e
           | None => Raise (ParseError type_str)
           end).
Proof.
  intros Hc Hf. cbv zeta.
  destruct (find_raises_ValueError _ _ _ Hf) as (msg & ->).
  destruct (contains "No matching" msg) eqn:Hm.
  - destruct (flagged_error_is_reparsed (lru_cached fuel) sd type_str msg self
                Hf Hm) as (_ & Hr & Hs).
    assert (He : exists e', res (_get_coder (lru_cached fuel) sd type_str self)
                            = Raise e').
    { rewrite Hr. destruct (parse type_str); eauto. }
    destruct He as (e' & He).
    destruct (lru_cached_raise fuel sd type_str self e' Hc He)
      as (_ & Hr' & Hs').
    split; [now rewrite Hs'|]. split; [eauto|].
    intros _. rewrite Hr', <- He. exact Hr.
  - pose proof (unflagged_error_is_not_reparsed (lru_cached fuel) sd type_str
                  msg self Hf Hm) as Hg.
    assert (He : res (_get_coder (lru_cached fuel) sd type_str self)
                 = Raise (ValueError msg)) by now rewrite Hg.
    destruct (lru_cached_raise fuel sd type_str self _ Hc He)
      as (_ & Hr' & Hs').
    split; [now rewrite Hs', Hg|]. split; [eauto|].
    intros E. inversion E; subst.
    rewrite no_matching_is_flagged in Hm. discriminate.
Qed.

(** X12: a lookup that [find] cannot resolve is never cached and changes
    nothing. When the cache has no entry for the type string and [find]
    raises, [get_encoder] / [get_decoder] raise and leave the registry, both
    caches included, exactly as it was; for the no-match error the exception
    is [ParseError] if the grammar rejects the string, and the no-match
    error itself otherwise. *)
Theorem failed_lookup_changes_nothing (fuel : nat) (type_str : string)
    (self : ABIRegistry) :
  (forall e,
     Dict.get String.eqb type_str (get_encoder_cache self) = None ->
     res (find type_str (_encoders self)) = Raise e ->
     let o := get_encoder (S fuel) type_str self in
     state o = self /\
     (exists e', res o = Raise e') /\
     (e = ValueError (no_matching_entries type_str (_name (_encoders self))) ->
      res o = match parse type_str with
              | Some _ => Raise e
              | None => Raise (ParseError type_str)
              end)) /\
  (forall e,
     Dict.get String.eqb type_str (get_decoder_cache self) = None ->
     res (find type_str (_decoders self)) = Raise e ->
     let o := get_decoder (S fuel) type_str self in
     state o = self /\
     (exists e', res o = Raise e') /\
     (e = ValueError (no_matching_entries type_str (_name (_decoders self))) ->
      res o = match parse type_str with
              | Some _ => Raise e
              | None => Raise (ParseError type_str)
              end)).
Proof.
  split; intros e Hc Hf.
  - exact (failed_lookup fuel Encoders type_str self e Hc Hf).
  - exact (failed_lookup fuel Decoders type_str self e Hc Hf).
Qed.

Lemma registered_string_resolves (fuel : nat) (sd : side) (s : string)
    (a : address) (label : option string) (self : ABIRegistry) :
  filter (fun pv => accepts (fst pv) s) (_values (mapping sd self)) = [] ->
  cache sd self = [] ->
  let o1 := _register_coder sd (Str s) (PlainCallable a) label self in
  let o := lru_cached (S fuel) sd s (state o1) in
  res o1 = Ok tt ->
  res o = Ok (PlainCallable a) /\
  cache sd (state o) = [(s, PlainCallable a)] /\
  mapping sd (state o) = mapping sd (state o1).
Proof.
  cbv zeta. intros Hnone Hcache Hok.
  destruct (_register_coder_frame sd (Str s) (PlainCallable a) label self)
    as (Hce & Hcd & _ & _).
  cbv zeta in Hce, Hcd.
  apply _register_coder_ok in Hok.
  destruct Hok as (p & l & (-> & ->) & _ & _ & Hs).
  set (s1 := state (_register_coder sd (Str s) (PlainCallable a) label self))
    in *.
  assert (Hc1 : cache sd s1 = []).
  { destruct sd; cbn [cache] in *; congruence. }
  assert (Hfind : res (find s (mapping sd s1)) = Ok (PlainCallable a)).
  { destruct (find_cases s (mapping sd s1)) as (_ & _ & Hr). cbv zeta in Hr.
    rewrite Hr, Hs. cbn [_values]. rewrite filter_app, Hnone.
    cbn [filter fst app]. rewrite accepts_Equals, String.eqb_refl.
    reflexivity. }
  pose proof (_get_coder_plain (lru_cached fuel) sd s a s1 Hfind) as Hg.
  cbn [lru_cached]. rewrite Hc1. cbn [Dict.get].
  rewrite bind_run, Hg. rewrite bind_run. cbn [get]. rewrite after_nil.
  rewrite bind_run. cbn [put]. rewrite after_nil. cbn [ret after res state].
  rewrite Hc1, cache_set_cache. repeat split.
  now destruct sd.
Qed.

End LookupFacts.

(** ** Unregistration *)

Section UnregisterFacts.
Context {env : Collaborators}.

Lemma _unregister_coder_frame (sd : side) (lookup_or_label : Lookup)
    (self : ABIRegistry) :
  let o := _unregister_coder sd lookup_or_label self in
  get_encoder_cache (state o) = get_encoder_cache self /\
  get_decoder_cache (state o) = get_decoder_cache self /\
  (forall sd', sd' <> sd -> mapping sd' (state o) = mapping sd' self) /\
  mapping sd (state o) =
  match lookup_or_label with
  | Callable p => state (remove_by_equality p (mapping sd self))
  | Str s => state (remove_by_label s (mapping sd self))
  | Other _ => mapping sd self
  end /\
  res o =
  match lookup_or_label with
  | Callable p => res (remove_by_equality p (mapping sd self))
  | Str s => res (remove_by_label s (mapping sd self))
  | Other o =>
      Raise (TypeError
               (fmt ["Lookup/label must be a callable or a value of type `str`: got ";
                     repr_default o]))
  end.
Proof.
  cbv zeta. destruct lookup_or_label as [p|s|x];
    unfold _unregister_coder, on_mapping, raise; cbn [state res].
  - repeat split; try (destruct sd; reflexivity);
      try (intros sd' H; now apply mapping_set_mapping_other).
  - repeat split; try (destruct sd; reflexivity);
      try (intros sd' H; now apply mapping_set_mapping_other).
  - repeat split; auto.
Qed.

(** X14: [unregister_encoder] / [unregister_decoder] empty the cache of
    their side before anything else and never touch the other side's
    mapping or cache; when the label (or an equal predicate) is not there
    they raise and leave the mapping of their own side as it was. *)
Theorem unregistration_clears_cache (lookup_or_label : Lookup)
    (self : ABIRegistry) :
  let missing (pm : PredicateMapping) :=
    match lookup_or_label with
    | Callable p => Dict.mem key_eqb p (_values pm) = false
    | Str s => Dict.mem String.eqb s (_labeled_predicates pm) = false
    | Other _ => True
    end in
  let oe := unregister_encoder lookup_or_label self in
  let od := unregister_decoder lookup_or_label self in
  (get_encoder_cache (state oe) = [] /\
   get_decoder_cache (state oe) = get_decoder_cache self /\
   _decoders (state oe) = _decoders self /\
   (missing (_encoders self) ->
    (exists e, res oe = Raise e) /\ _encoders (state oe) = _encoders self)) /\
  (get_decoder_cache (state od) = [] /\
   get_encoder_cache (state od) = get_encoder_cache self /\
   _encoders (state od) = _encoders self /\
   (missing (_decoders self) ->
    (exists e, res od = Raise e) /\ _decoders (state od) = _decoders self)).
Proof.
  cbv zeta. rewrite unregister_encoder_unfold, unregister_decoder_unfold.
  split.
  - destruct (_unregister_coder_frame Encoders lookup_or_label
                (set_cache Encoders [] self)) as (He & Hd & Ho & Hm & Hr).
    pose proof (Ho Decoders ltac:(discriminate)) as Hother.
    split; [exact He|]. split; [exact Hd|]. split; [exact Hother|].
    intros Hmiss.
    change (_encoders ?x) with (mapping Encoders x) at 1.
    rewrite Hr, Hm. cbn [mapping set_cache _encoders].
    destruct lookup_or_label as [p|s|x].
    + apply dict_del_None in Hmiss.
      rewrite remove_by_equality_run, Hmiss. cbn. eauto.
    + apply dict_get_mem in Hmiss.
      rewrite remove_by_label_run, Hmiss. cbn. eauto.
    + eauto.
  - destruct (_unregister_coder_frame Decoders lookup_or_label
                (set_cache Decoders [] self)) as (He & Hd & Ho & Hm & Hr).
    pose proof (Ho Encoders ltac:(discriminate)) as Hother.
    split; [exact Hd|]. split; [exact He|]. split; [exact Hother|].
    intros Hmiss.
    change (_decoders ?x) with (mapping Decoders x) at 1.
    rewrite Hr, Hm. cbn [mapping set_cache _decoders].
    destruct lookup_or_label as [p|s|x].
    + apply dict_del_None in Hmiss.
      rewrite remove_by_equality_run, Hmiss. cbn. eauto.
    + apply dict_get_mem in Hmiss.
      rewrite remove_by_label_run, Hmiss. cbn. eauto.
    + eauto.
Qed.

End UnregisterFacts.

(** ** [register] and [unregister] together *)

Lemma bind_after_Ok (S A B : Type) (m : M S A) (k : A -> M S B) (s : S) (a : A) :
  res (m s) = Ok a ->
  res ((x <- m ;; k x) s) = res (k a (state (m s))) /\
  state ((x <- m ;; k x) s) = state (k a (state (m s))).
Proof. unfold bind. intros ->. auto. Qed.

Lemma bind_Raise_first (S A B : Type) (m : M S A) (k : A -> M S B) (s : S)
    (e : exn) :
  res (m s) = Raise e ->
  res ((x <- m ;; k x) s) = Raise e /\
  state ((x <- m ;; k x) s) = state (m s).
Proof. unfold bind. intros ->. auto. Qed.

Section JointFacts.
Context {env : Collaborators}.

(** A registration that binds the label [l], undone by that label on any
    registry whose mapping on that side is the one the registration left. *)
Lemma labelled_round_trip (sd : side) (lookup : Lookup) (coder : pyobject)
    (label : option string) (l : string) (self self1 : ABIRegistry) :
  match lookup with
  | Callable _ => label = Some l
  | Str s => l = s
  | Other _ => False
  end ->
  res (_register_coder sd lookup coder label self) = Ok tt ->
  mapping sd self1 =
  mapping sd (state (_register_coder sd lookup coder label self)) ->
  res (_unregister_coder sd (Str l) self1) = Ok tt /\
  mapping sd (state (_unregister_coder sd (Str l) self1)) = mapping sd self.
Proof.
  intros Hl H H1. apply _register_coder_ok in H.
  destruct H as (p & l0 & Hlk & Hp & Hfresh & Hs).
  assert (El : l0 = Some l).
  { destruct lookup as [q|s|x]; [| |contradiction].
    - destruct Hlk as [_ ->]. exact Hl.
    - destruct Hlk as [_ ->]. now subst. }
  subst l0. rewrite Hs in H1.
  destruct (_unregister_coder_frame sd (Str l) self1) as (_ & _ & _ & Hm & Hr).
  rewrite Hr, Hm, H1.
  destruct (remove_by_label_last (_name (mapping sd self)) l p coder
              (_values (mapping sd self))
              (_labeled_predicates (mapping sd self)) Hp Hfresh) as (Hr' & Hst).
  rewrite Hr', Hst, mapping_eta. auto.
Qed.

(** X15: a successful joint [register] that binds a label (a string
    lookup, whose label is the string, or a callable with [label] given) is
    undone by [unregister] of that label: it succeeds, both mappings are
    what they were before the registration, and both caches are empty. *)
Theorem register_unregister_round_trip (lookup : Lookup)
    (encoder decoder : pyobject) (label : option string) (l : string)
    (self : ABIRegistry) :
  match lookup with
  | Callable _ => label = Some l
  | Str s => l = s
  | Other _ => False
  end ->
  let o1 := register lookup encoder decoder label self in
  let o := unregister l (state o1) in
  res o1 = Ok tt ->
  res o = Ok tt /\
  _encoders (state o) = _encoders self /\
  _decoders (state o) = _decoders self /\
  get_encoder_cache (state o) = [] /\
  get_decoder_cache (state o) = [].
Proof.
  intros Hl. cbv zeta. unfold register, unregister. intros H.
  apply bind_Ok in H. destruct H as ([] & He & Hd & ->).
  rewrite register_encoder_unfold in He, Hd.
  rewrite register_decoder_unfold in Hd.
  rewrite register_encoder_unfold, register_decoder_unfold.
  set (s1 := state (_register_coder Encoders lookup encoder label
                      (set_cache Encoders [] self))) in *.
  set (s2 := state (_register_coder Decoders lookup decoder label
                      (set_cache Decoders [] s1))).
  destruct (_register_coder_frame Encoders lookup encoder label
              (set_cache Encoders [] self)) as (_ & _ & Fe & _).
  destruct (_register_coder_frame Decoders lookup decoder label
              (set_cache Decoders [] s1)) as (_ & _ & Fd & _).
  fold s1 in Fe. fold s2 in Fd.
  assert (Hdec1 : _decoders s1 = _decoders self)
    by exact (Fe Decoders ltac:(discriminate)).
  assert (Henc2 : _encoders s2 = _encoders s1)
    by exact (Fd Encoders ltac:(discriminate)).
  destruct (labelled_round_trip Encoders lookup encoder label l
              (set_cache Encoders [] self) (set_cache Encoders [] s2) Hl He
              Henc2) as (Hr3 & Hm3).
  destruct (_unregister_coder_frame Encoders (Str l) (set_cache Encoders [] s2))
    as (Hce3 & Hcd3 & Fo3 & _ & _).
  set (s3 := state (_unregister_coder Encoders (Str l)
                      (set_cache Encoders [] s2))) in *.
  assert (Hdec3 : _decoders s3 = _decoders s2)
    by exact (Fo3 Decoders ltac:(discriminate)).
  destruct (labelled_round_trip Decoders lookup decoder label l
              (set_cache Decoders [] s1) (set_cache Decoders [] s3) Hl Hd
              Hdec3) as (Hr4 & Hm4).
  destruct (_unregister_coder_frame Decoders (Str l) (set_cache Decoders [] s3))
    as (Hce4 & Hcd4 & Fo4 & _ & _).
  set (s4 := state (_unregister_coder Decoders (Str l)
                      (set_cache Decoders [] s3))) in *.
  assert (Henc4 : _encoders s4 = _encoders s3)
    by exact (Fo4 Encoders ltac:(discriminate)).
  destruct (bind_after_Ok _ _ _ (unregister_encoder (Str l))
              (fun _ => unregister_decoder (Str l)) s2 tt) as (Hres & Hst).
  { rewrite unregister_encoder_unfold. exact Hr3. }
  rewrite Hres, Hst, unregister_encoder_unfold, unregister_decoder_unfold.
  fold s3. fold s4.
  split; [exact Hr4|].
  split; [exact (eq_trans Henc4 Hm3)|].
  split; [exact (eq_trans Hm4 Hdec1)|].
  split; [exact (eq_trans Hce4 Hce3) | exact Hcd4].
Qed.

(** X16: [unregister] is not transactional either. If the encoder side
    raises, the decoder side is not attempted: decoder mapping and decoder
    cache are untouched. If the encoder side succeeds and the decoder side
    raises, [unregister] raises that exception and the encoder entry stays
    removed. *)
Theorem unregister_is_not_transactional (label : string) (self : ABIRegistry) :
  let o1 := unregister_encoder (Str label) self in
  let o2 := unregister_decoder (Str label) (state o1) in
  let o := unregister label self in
  (forall e, res o1 = Raise e ->
     res o = Raise e /\
     _decoders (state o) = _decoders self /\
     get_decoder_cache (state o) = get_decoder_cache self) /\
  (forall e, res o1 = Ok tt -> res o2 = Raise e ->
     res o = Raise e /\ _encoders (state o) = _encoders (state o1)).
Proof.
  cbv zeta. unfold unregister. split.
  - intros e H.
    destruct (bind_Raise_first _ _ _ (unregister_encoder (Str label))
                (fun _ => unregister_decoder (Str label)) self e H)
      as (Hr & Hs).
    rewrite Hr, Hs, unregister_encoder_unfold.
    destruct (_unregister_coder_frame Encoders (Str label)
                (set_cache Encoders [] self)) as (_ & Hcd & Fo & _ & _).
    split; [reflexivity|].
    split; [exact (Fo Decoders ltac:(discriminate)) | exact Hcd].
  - intros e H1 H2.
    destruct (bind_Raise_second _ _ _ (unregister_encoder (Str label))
                (fun _ => unregister_decoder (Str label)) self tt e H1 H2)
      as (Hr & Hs).
    rewrite Hr, Hs, unregister_decoder_unfold.
    destruct (_unregister_coder_frame Decoders (Str label)
                (set_cache Decoders []
                   (state (unregister_encoder (Str label) self))))
      as (_ & _ & Fo & _ & _).
    split; [reflexivity|].
    exact (Fo Encoders ltac:(discriminate)).
Qed.

End JointFacts.

(** ** Removed rules and the cache; callables registered and unregistered *)

Section LeakFacts.
Context {env : Collaborators}.

Lemma remove_by_label_name (label : string) (self : PredicateMapping) :
  _name (state (remove_by_label label self)) = _name self.
Proof.
  rewrite remove_by_label_run.
  destruct (Dict.get String.eqb label (_labeled_predicates self));
    [|reflexivity].
  destruct (Dict.del String.eqb label (_labeled_predicates self));
    [|reflexivity].
  destruct (Dict.del key_eqb _ (_values self)); reflexivity.
Qed.

Lemma remove_by_label_bound (label : string) (p : Predicate)
    (self : PredicateMapping) :
  well_formed self ->
  Dict.get String.eqb label (_labeled_predicates self) = Some p ->
  res (remove_by_label label self) = Ok tt.
Proof.
  intros [H1 H2 H3 H4] Hg. rewrite remove_by_label_run, Hg.
  pose proof (dict_get_label_In _ _ _ Hg) as Hin.
  destruct (H3 _ _ Hin) as (v & Hv).
  destruct (distinct_keys_locate _ _ String.eqb label p _
              (String.eqb_refl label) H2 Hin) as (pre & post & _ & _ & ->).
  destruct (distinct_keys_locate _ _ key_eqb p v _ (key_eqb_refl p) H1 Hv)
    as (vpre & vpost & _ & _ & ->).
  reflexivity.
Qed.

Lemma removed_rule_is_gone (fuel : nat) (sd : side) (label type_str : string)
    (p : Predicate) (v : pyobject) (self : ABIRegistry) :
  well_formed (mapping sd self) ->
  Dict.get String.eqb label (_labeled_predicates (mapping sd self)) = Some p ->
  filter (fun pv => accepts (fst pv) type_str) (_values (mapping sd self)) =
  [(p, v)] ->
  let o1 := _unregister_coder sd (Str label) (set_cache sd [] self) in
  let o := lru_cached (S fuel) sd type_str (state o1) in
  res o1 = Ok tt /\
  res o = match parse type_str with
          | Some _ =>
              Raise (ValueError (no_matching_entries type_str
                                   (_name (mapping sd self))))
          | None => Raise (ParseError type_str)
          end /\
  state o = state o1.
Proof.
  intros Hwf Hg Hhits. cbv zeta.
  destruct (_unregister_coder_frame sd (Str label) (set_cache sd [] self))
    as (Hce & Hcd & _ & Hm & Hr).
  set (s1 := state (_unregister_coder sd (Str label) (set_cache sd [] self)))
    in *.
  rewrite mapping_set_cache in Hm, Hr.
  split; [rewrite Hr; exact (remove_by_label_bound label p _ Hwf Hg)|].
  assert (Hc : Dict.get String.eqb type_str (cache sd s1) = None).
  { destruct sd; cbn [cache set_cache get_encoder_cache get_decoder_cache] in *;
      [rewrite Hce | rewrite Hcd]; reflexivity. }
  destruct (remove_by_label_then_find label p (mapping sd self) type_str
              Hwf Hg) as (_ & Hfind).
  specialize (Hfind v Hhits). rewrite <- Hm in Hfind.
  assert (Hname : _name (mapping sd s1) = _name (mapping sd self)).
  { rewrite Hm. apply remove_by_label_name. }
  rewrite <- Hname in Hfind.
  destruct (failed_lookup fuel sd type_str s1 _ Hc Hfind) as (Hs & _ & Hres).
  split; [|exact Hs].
  rewrite (Hres eq_refl), Hname. reflexivity.
Qed.

(** X8: a removed rule does not leak through the cache. On a well-formed
    side, when the rule bound to a label is the only one that accepts a type
    string (so the string may well be cached), [unregister_encoder]
    ([unregister_decoder]) of the label succeeds and the next [get_encoder]
    ([get_decoder]) of that string raises: the no-match error, or
    [ParseError] if the grammar rejects the string. Nothing is cached by
    that failed call. *)
Theorem unregistered_rule_does_not_leak (fuel : nat) (label type_str : string)
    (p : Predicate) (v : pyobject) (self : ABIRegistry) :
  (well_formed (_encoders self) ->
   Dict.get String.eqb label (_labeled_predicates (_encoders self)) = Some p ->
   filter (fun pv => accepts (fst pv) type_str) (_values (_encoders self)) =
   [(p, v)] ->
   let o1 := unregister_encoder (Str label) self in
   let o := get_encoder (S fuel) type_str (state o1) in
   res o1 = Ok tt /\
   res o = match parse type_str with
           | Some _ =>
               Raise (ValueError (no_matching_entries type_str
                                    (_name (_encoders self))))
           | None => Raise (ParseError type_str)
           end /\
   state o = state o1) /\
  (well_formed (_decoders self) ->
   Dict.get String.eqb label (_labeled_predicates (_decoders self)) = Some p ->
   filter (fun pv => accepts (fst pv) type_str) (_values (_decoders self)) =
   [(p, v)] ->
   let o1 := unregister_decoder (Str label) self in
   let o := get_decoder (S fuel) type_str (state o1) in
   res o1 = Ok tt /\
   res o = match parse type_str with
           | Some _ =>
               Raise (ValueError (no_matching_entries type_str
                                    (_name (_decoders self))))
           | None => Raise (ParseError type_str)
           end /\
   state o = state o1).
Proof.
  split; intros Hwf Hg Hhits; cbv zeta.
  - rewrite unregister_encoder_unfold.
    exact (removed_rule_is_gone fuel Encoders label type_str p v self
             Hwf Hg Hhits).
  - rewrite unregister_decoder_unfold.
    exact (removed_rule_is_gone fuel Decoders label type_str p v self
             Hwf Hg Hhits).
Qed.

Lemma label_scan_fresh (p : Predicate) (self : PredicateMapping) :
  well_formed self ->
  Dict.mem key_eqb p (_values self) = false ->
  label_scan p (_labeled_predicates self) = None.
Proof.
  intros [_ _ H3 _] Hp.
  assert (Hall : forall l q, In (l, q) (_labeled_predicates self) ->
                             py_is q p = false).
  { intros l q Hin. destruct (H3 l q Hin) as (w & Hw).
    apply dict_mem_false_Forall in Hp. rewrite Forall_forall in Hp.
    specialize (Hp _ Hw). simpl in Hp. unfold key_eqb in Hp.
    now apply orb_false_iff in Hp. }
  clear H3 Hp. induction (_labeled_predicates self) as [|[k q] ls IH];
    [reflexivity|].
  simpl. rewrite (Hall k q (or_introl eq_refl)).
  apply IH. intros l q' Hin. apply (Hall l). now right.
Qed.

Lemma callable_round_trip (sd : side) (p : Predicate) (coder : pyobject)
    (label : option string) (self self1 : ABIRegistry) :
  well_formed (mapping sd self) ->
  res (_register_coder sd (Callable p) coder label self) = Ok tt ->
  mapping sd self1 =
  mapping sd (state (_register_coder sd (Callable p) coder label self)) ->
  res (_unregister_coder sd (Callable p) self1) = Ok tt /\
  mapping sd (state (_unregister_coder sd (Callable p) self1)) =
  mapping sd self.
Proof.
  intros Hwf H H1. apply _register_coder_ok in H.
  destruct H as (q & l0 & (-> & ->) & Hp & Hfresh & Hs).
  rewrite Hs in H1.
  destruct (_unregister_coder_frame sd (Callable p) self1)
    as (_ & _ & _ & Hm & Hr).
  rewrite Hr, Hm, H1.
  pose proof (label_scan_fresh p _ Hwf Hp) as Hscan.
  destruct label as [l|].
  - rewrite (remove_by_equality_same_object (_name (mapping sd self)) l p coder
               _ _ Hp Hfresh Hscan).
    cbn [res state]. now rewrite mapping_eta.
  - rewrite (remove_by_equality_unlabelled (_name (mapping sd self)) p p coder
               _ _ Hp (key_eqb_refl p) Hscan).
    cbn [res state]. now rewrite mapping_eta.
Qed.

(** X17: a callable registered on a well-formed side, with or without a
    label, is taken out again by unregistering that same callable object:
    the call succeeds, entry and label are gone, and the mapping of that
    side is the one before the registration; the other side is not
    touched. *)
Theorem callable_registration_round_trip (p : Predicate)
    (encoder decoder : pyobject) (label : option string) (self : ABIRegistry) :
  (well_formed (_encoders self) ->
   let o1 := register_encoder (Callable p) encoder label self in
   let o2 := unregister_encoder (Callable p) (state o1) in
   res o1 = Ok tt ->
   res o2 = Ok tt /\
   _encoders (state o2) = _encoders self /\
   _decoders (state o2) = _decoders self) /\
  (well_formed (_decoders self) ->
   let o1 := register_decoder (Callable p) decoder label self in
   let o2 := unregister_decoder (Callable p) (state o1) in
   res o1 = Ok tt ->
   res o2 = Ok tt /\
   _decoders (state o2) = _decoders self /\
   _encoders (state o2) = _encoders self).
Proof.
  split; intros Hwf; cbv zeta.
  - rewrite register_encoder_unfold, unregister_encoder_unfold. intros H.
    destruct (callable_round_trip Encoders p encoder label
                (set_cache Encoders [] self) _ Hwf H
                (mapping_set_cache Encoders Encoders [] _)) as (Hr & Hm).
    destruct (_register_coder_frame Encoders (Callable p) encoder label
                (set_cache Encoders [] self)) as (_ & _ & Fr & _).
    destruct (_unregister_coder_frame Encoders (Callable p)
                (set_cache Encoders []
                   (state (_register_coder Encoders (Callable p) encoder label
                             (set_cache Encoders [] self)))))
      as (_ & _ & Fu & _ & _).
    split; [exact Hr|]. split; [exact Hm|].
    exact (eq_trans (Fu Decoders ltac:(discriminate))
             (Fr Decoders ltac:(discriminate))).
  - rewrite register_decoder_unfold, unregister_decoder_unfold. intros H.
    destruct (callable_round_trip Decoders p decoder label
                (set_cache Decoders [] self) _ Hwf H
                (mapping_set_cache Decoders Decoders [] _)) as (Hr & Hm).
    destruct (_register_coder_frame Decoders (Callable p) decoder label
                (set_cache Decoders [] self)) as (_ & _ & Fr & _).
    destruct (_unregister_coder_frame Decoders (Callable p)
                (set_cache Decoders []
                   (state (_register_coder Decoders (Callable p) decoder label
                             (set_cache Decoders [] self)))))
      as (_ & _ & Fu & _ & _).
    split; [exact Hr|]. split; [exact Hm|].
    exact (eq_trans (Fu Encoders ltac:(discriminate))
             (Fr Encoders ltac:(discriminate))).
Qed.

End LeakFacts.

(** ** String-keyed registration, decided by the state

    Whether [register_encoder(S, ...)] goes through is decided by the two
    guards of [add] on the mapping as it stands: no equal predicate is stored
    and the label [S] is not bound. *)

Section StrRegistration.
Context {env : Collaborators}.

(** The two guards of [add], as a test on the mapping. *)
Lemma add_decides (p : Predicate) (v : pyobject) (l : option string)
    (self : PredicateMapping) :
  let fresh :=
    negb (Dict.mem key_eqb p (_values self)) &&
    negb (match l with
          | Some x => Dict.mem String.eqb x (_labeled_predicates self)
          | None => false
          end) in
  if fresh then res (add p v l self) = Ok tt
  else exists msg, res (add p v l self) = Raise (ValueError msg).
Proof.
  cbv zeta. unfold add, bind, get, put, raise, ret, after. simpl.
  destruct (Dict.mem key_eqb p (_values self)); simpl;
    [eexists; reflexivity|].
  destruct l as [x|]; simpl; [|reflexivity].
  destruct (Dict.mem String.eqb x (_labeled_predicates self)); simpl;
    [eexists; reflexivity | reflexivity].
Qed.

(** With a [str] lookup [_register_coder] allocates the [Equals] object and
    hands it to [add] with the lookup string as label. *)
Lemma _register_coder_Str_run (sd : side) (s : string) (coder : pyobject)
    (label : option string) (self : ABIRegistry) :
  let p := Pred (next_address self) (Equals s) in
  let a := add p coder (Some s) (mapping sd self) in
  let o := _register_coder sd (Str s) coder label self in
  res o = res a /\
  mapping sd (state o) = state a /\
  next_address (state o) = S (next_address self).
Proof.
  cbv zeta. unfold _register_coder.
  erewrite run_bind_Ok by reflexivity. rewrite after_nil.
  unfold on_mapping. cbn [res state].
  destruct sd; repeat split; reflexivity.
Qed.

Lemma str_registration_decides (sd : side) (s : string) (coder : pyobject)
    (label : option string) (self : ABIRegistry) :
  let p := Pred (next_address self) (Equals s) in
  let o := _register_coder sd (Str s) coder label self in
  if negb (Dict.mem key_eqb p (_values (mapping sd self))) &&
     negb (Dict.mem String.eqb s (_labeled_predicates (mapping sd self)))
  then
    res o = Ok tt /\
    mapping sd (state o) =
      Mapping (_name (mapping sd self))
        (_values (mapping sd self) ++ [(p, coder)])
        (_labeled_predicates (mapping sd self) ++ [(s, p)])
  else
    (exists msg, res o = Raise (ValueError msg)) /\
    mapping sd (state o) = mapping sd self.
Proof.
  cbv zeta.
  destruct (_register_coder_Str_run sd s coder label self) as (Hr & Hs & _).
  cbv zeta in Hr, Hs. rewrite Hr, Hs.
  pose proof (add_decides (Pred (next_address self) (Equals s)) coder (Some s)
                (mapping sd self)) as H.
  cbv zeta in H.
  destruct (negb _ && negb _).
  - split; [exact H|].
    apply add_ok_appends in H. destruct H as (_ & _ & H). exact H.
  - destruct H as (msg & H). split; [exists msg; exact H|].
    exact (add_raise_keeps _ _ _ _ _ H).
Qed.

Lemma str_registration_free (sd : side) (s : string) (coder : pyobject)
    (label : option string) (self : ABIRegistry) :
  let p := Pred (next_address self) (Equals s) in
  let o := _register_coder sd (Str s) coder label self in
  Dict.mem key_eqb p (_values (mapping sd self)) = false ->
  Dict.mem String.eqb s (_labeled_predicates (mapping sd self)) = false ->
  res o = Ok tt /\
  Dict.get key_eqb p (_values (mapping sd (state o))) = Some coder /\
  Dict.get String.eqb s (_labeled_predicates (mapping sd (state o))) = Some p /\
  next_address (state o) = S (next_address self).
Proof.
  cbv zeta. intros Hp Hl.
  pose proof (str_registration_decides sd s coder label self) as H.
  cbv zeta in H. rewrite Hp, Hl in H. cbn [negb andb] in H.
  destruct H as (Hr & Hs). split; [exact Hr|].
  rewrite Hs. cbn [_values _labeled_predicates].
  split; [apply dict_get_last; [apply key_eqb_refl | exact Hp]|].
  split; [apply dict_get_last; [apply String.eqb_refl | exact Hl]|].
  exact (proj2 (proj2 (_register_coder_Str_run sd s coder label self))).
Qed.

Lemma str_registration_Ok_iff (sd : side) (s : string) (coder : pyobject)
    (label : option string) (self : ABIRegistry) :
  let p := Pred (next_address self) (Equals s) in
  res (_register_coder sd (Str s) coder label self) = Ok tt <->
  Dict.mem key_eqb p (_values (mapping sd self)) = false /\
  Dict.mem String.eqb s (_labeled_predicates (mapping sd self)) = false.
Proof.
  cbv zeta. split.
  - intros H. apply _register_coder_ok in H.
    destruct H as (q & l & (-> & ->) & Hp & Hl & _). auto.
  - intros (Hp & Hl).
    exact (proj1 (str_registration_free sd s coder label self Hp Hl)).
Qed.

(** C10: with a [str] lookup the [label] argument plays no part.
    [register_encoder] and [register_decoder] give the same outcome for
    every label as for [label=None], and that outcome is read off the
    mapping: when no stored predicate equals the new [Equals(s)] object and
    the label [s] is not bound, the call returns and the mapping is the old
    one with one value appended, the coder under the new [Equals(s)], and
    one label appended, [s] bound to that object; otherwise the call raises
    a [ValueError] and the mapping is the old one. The label argument is
    bound nowhere. *)
Theorem str_lookup_ignores_label (s : string) (coder : pyobject)
    (label : option string) (self : ABIRegistry) :
  let p := Pred (next_address self) (Equals s) in
  let oe := register_encoder (Str s) coder label self in
  let od := register_decoder (Str s) coder label self in
  let free (pm : PredicateMapping) :=
    negb (Dict.mem key_eqb p (_values pm)) &&
    negb (Dict.mem String.eqb s (_labeled_predicates pm)) in
  oe = register_encoder (Str s) coder None self /\
  od = register_decoder (Str s) coder None self /\
  (if free (_encoders self) then
     res oe = Ok tt /\
     _encoders (state oe) =
       Mapping (_name (_encoders self))
         (_values (_encoders self) ++ [(p, coder)])
         (_labeled_predicates (_encoders self) ++ [(s, p)])
   else
     (exists msg, res oe = Raise (ValueError msg)) /\
     _encoders (state oe) = _encoders self) /\
  (if free (_decoders self) then
     res od = Ok tt /\
     _decoders (state od) =
       Mapping (_name (_decoders self))
         (_values (_decoders self) ++ [(p, coder)])
         (_labeled_predicates (_decoders self) ++ [(s, p)])
   else
     (exists msg, res od = Raise (ValueError msg)) /\
     _decoders (state od) = _decoders self).
Proof.
  cbv zeta. split; [reflexivity|]. split; [reflexivity|].
  rewrite register_encoder_unfold, register_decoder_unfold.
  split.
  - exact (str_registration_decides Encoders s coder label
             (set_cache Encoders [] self)).
  - exact (str_registration_decides Decoders s coder label
             (set_cache Decoders [] self)).
Qed.

(** C6, within its reach: take a registry where, on the side concerned, no
    stored predicate equals the new [Equals(s)] object and the label [s] is
    not bound. Then registering under the string [s] with [label=None]
    returns, on the encoder side, on the decoder side, and on both through
    [register]; it stores the coder under a new [Equals(s)] object and binds
    the label [s] to that object; and [unregister_encoder(s)] /
    [unregister_decoder(s)] on the resulting registry returns, gives back
    the mapping of its side as it was before the registration and leaves the
    other side alone. Outside that reach the registration does not return:
    [register_encoder] / [register_decoder] return exactly when the two
    conditions hold. *)
Theorem str_registration_round_trip (s : string) (encoder decoder : pyobject)
    (self : ABIRegistry) :
  let p := Pred (next_address self) (Equals s) in
  let p' := Pred (S (next_address self)) (Equals s) in
  let free (pm : PredicateMapping) (q : Predicate) :=
    Dict.mem key_eqb q (_values pm) = false /\
    Dict.mem String.eqb s (_labeled_predicates pm) = false in
  (free (_encoders self) p ->
   let o1 := register_encoder (Str s) encoder None self in
   let o2 := unregister_encoder (Str s) (state o1) in
   res o1 = Ok tt /\
   Dict.get key_eqb p (_values (_encoders (state o1))) = Some encoder /\
   Dict.get String.eqb s (_labeled_predicates (_encoders (state o1))) = Some p /\
   res o2 = Ok tt /\
   _encoders (state o2) = _encoders self /\
   _decoders (state o2) = _decoders (state o1)) /\
  (free (_decoders self) p ->
   let o1 := register_decoder (Str s) decoder None self in
   let o2 := unregister_decoder (Str s) (state o1) in
   res o1 = Ok tt /\
   Dict.get key_eqb p (_values (_decoders (state o1))) = Some decoder /\
   Dict.get String.eqb s (_labeled_predicates (_decoders (state o1))) = Some p /\
   res o2 = Ok tt /\
   _decoders (state o2) = _decoders self /\
   _encoders (state o2) = _encoders (state o1)) /\
  (free (_encoders self) p -> free (_decoders self) p' ->
   let o1 := register (Str s) encoder decoder None self in
   let o2 := unregister_encoder (Str s) (state o1) in
   let o3 := unregister_decoder (Str s) (state o1) in
   res o1 = Ok tt /\
   Dict.get key_eqb p (_values (_encoders (state o1))) = Some encoder /\
   Dict.get String.eqb s (_labeled_predicates (_encoders (state o1))) = Some p /\
   Dict.get key_eqb p' (_values (_decoders (state o1))) = Some decoder /\
   Dict.get String.eqb s (_labeled_predicates (_decoders (state o1))) = Some p' /\
   res o2 = Ok tt /\
   _encoders (state o2) = _encoders self /\
   _decoders (state o2) = _decoders (state o1) /\
   res o3 = Ok tt /\
   _decoders (state o3) = _decoders self /\
   _encoders (state o3) = _encoders (state o1)) /\
  (res (register_encoder (Str s) encoder None self) = Ok tt <->
   free (_encoders self) p) /\
  (res (register_decoder (Str s) decoder None self) = Ok tt <->
   free (_decoders self) p).
Proof.
  cbv zeta.
  destruct (str_round_trip_if_registered s encoder decoder self)
    as (Te & Td & Tj).
  cbv zeta in Te, Td, Tj.
  assert (Ie : res (register_encoder (Str s) encoder None self) = Ok tt <->
               Dict.mem key_eqb (Pred (next_address self) (Equals s))
                 (_values (_encoders self)) = false /\
               Dict.mem String.eqb s (_labeled_predicates (_encoders self))
                 = false).
  { rewrite register_encoder_unfold.
    exact (str_registration_Ok_iff Encoders s encoder None
             (set_cache Encoders [] self)). }
  assert (Id : res (register_decoder (Str s) decoder None self) = Ok tt <->
               Dict.mem key_eqb (Pred (next_address self) (Equals s))
                 (_values (_decoders self)) = false /\
               Dict.mem String.eqb s (_labeled_predicates (_decoders self))
                 = false).
  { rewrite register_decoder_unfold.
    exact (str_registration_Ok_iff Decoders s decoder None
             (set_cache Decoders [] self)). }
  split; [|split; [|split; [|split; [exact Ie | exact Id]]]].
  - intros Hf. pose proof (proj2 Ie Hf) as Hok.
    split; [exact Hok | exact (Te Hok)].
  - intros Hf. pose proof (proj2 Id Hf) as Hok.
    split; [exact Hok | exact (Td Hok)].
  - intros (Hpe & Hle) (Hpd & Hld).
    pose proof (proj2 Ie (conj Hpe Hle)) as Hoke.
    set (s1 := state (register_encoder (Str s) encoder None self)).
    assert (E1 : s1 = state (_register_coder Encoders (Str s) encoder None
                               (set_cache Encoders [] self)))
      by (unfold s1; now rewrite register_encoder_unfold).
    destruct (str_registration_free Encoders s encoder None
                (set_cache Encoders [] self) Hpe Hle)
      as (_ & Gv & Gl & Gn).
    rewrite <- E1 in Gv, Gl, Gn.
    destruct (_register_coder_frame Encoders (Str s) encoder None
                (set_cache Encoders [] self)) as (_ & _ & Foe & _).
    pose proof (Foe Decoders ltac:(discriminate)) as Hdec1.
    rewrite <- E1 in Hdec1.
    cbn [mapping set_cache _encoders _decoders next_address] in Gv, Gl, Gn, Hdec1.
    set (s2 := state (_register_coder Decoders (Str s) decoder None
                        (set_cache Decoders [] s1))).
    assert (Hpd1 : Dict.mem key_eqb
                     (Pred (next_address (set_cache Decoders [] s1)) (Equals s))
                     (_values (mapping Decoders (set_cache Decoders [] s1)))
                   = false).
    { cbn [mapping set_cache _decoders next_address]. rewrite Gn, Hdec1.
      exact Hpd. }
    assert (Hld1 : Dict.mem String.eqb s
                     (_labeled_predicates
                        (mapping Decoders (set_cache Decoders [] s1)))
                   = false).
    { cbn [mapping set_cache _decoders]. rewrite Hdec1. exact Hld. }
    destruct (str_registration_free Decoders s decoder None
                (set_cache Decoders [] s1) Hpd1 Hld1)
      as (Hokd & Dv & Dl & _).
    fold s2 in Dv, Dl.
    cbn [mapping set_cache _decoders next_address] in Dv, Dl.
    rewrite Gn in Dv, Dl.
    destruct (_register_coder_frame Decoders (Str s) decoder None
                (set_cache Decoders [] s1)) as (_ & _ & Fod & _).
    pose proof (Fod Encoders ltac:(discriminate)) as Henc2.
    fold s2 in Henc2. cbn [mapping set_cache _encoders] in Henc2.
    destruct (bind_after_Ok _ _ _
                (register_encoder (Str s) encoder None)
                (fun _ => register_decoder (Str s) decoder None)
                self tt Hoke) as (Hr & Hst).
    fold s1 in Hr, Hst.
    rewrite register_decoder_unfold in Hr, Hst.
    fold s2 in Hst.
    assert (Hok : res (register (Str s) encoder decoder None self) = Ok tt)
      by (unfold register; rewrite Hr; exact Hokd).
    assert (Est : state (register (Str s) encoder decoder None self) = s2)
      by exact Hst.
    split; [exact Hok|].
    rewrite Est at 1 2 3 4. rewrite Henc2.
    split; [exact Gv|]. split; [exact Gl|].
    split; [exact Dv|]. split; [exact Dl|].
    exact (Tj Hok).
Qed.

(** X13: take a side where no stored predicate accepts the string [s], the
    label [s] is not bound, and no stored predicate sits at the address the
    next new object gets. Then registering a plain callable under [s]
    returns, whatever the label argument, and the next [get_encoder(s)]
    ([get_decoder(s)]) returns the registered object, caches it under [s],
    and leaves the mapping as the registration made it. *)
Theorem registered_string_is_resolved (fuel : nat) (s : string) (a : address)
    (label : option string) (self : ABIRegistry) :
  let ready (pm : PredicateMapping) :=
    filter (fun pv => accepts (fst pv) s) (_values pm) = [] /\
    Dict.mem String.eqb s (_labeled_predicates pm) = false /\
    (forall q v, In (q, v) (_values pm) -> id q <> next_address self) in
  (ready (_encoders self) ->
   let o1 := register_encoder (Str s) (PlainCallable a) label self in
   let o := get_encoder (S fuel) s (state o1) in
   res o1 = Ok tt /\
   res o = Ok (PlainCallable a) /\
   get_encoder_cache (state o) = [(s, PlainCallable a)] /\
   _encoders (state o) = _encoders (state o1)) /\
  (ready (_decoders self) ->
   let o1 := register_decoder (Str s) (PlainCallable a) label self in
   let o := get_decoder (S fuel) s (state o1) in
   res o1 = Ok tt /\
   res o = Ok (PlainCallable a) /\
   get_decoder_cache (state o) = [(s, PlainCallable a)] /\
   _decoders (state o) = _decoders (state o1)).
Proof.
  cbv zeta.
  assert (Hmem : forall pm,
            filter (fun pv => accepts (fst pv) s) (_values pm) = [] ->
            (forall q v, In (q, v) (_values pm) -> id q <> next_address self) ->
            Dict.mem key_eqb (Pred (next_address self) (Equals s)) (_values pm)
            = false).
  { intros pm Hnone Hnew. apply dict_mem_false_Forall. apply Forall_forall.
    intros [q v] Hin. cbn [fst]. unfold key_eqb, py_is, py_eq. cbn [id code].
    apply orb_false_iff. split.
    - apply Nat.eqb_neq. exact (Hnew q v Hin).
    - destruct (code q) as [w|b sub|body] eqn:Hc; try reflexivity.
      destruct (String.eqb w s) eqn:Hw; [|reflexivity].
      assert (Hacc : accepts q s = true).
      { unfold accepts, call. rewrite Hc. exact Hw. }
      assert (Hf : In (q, v) (filter (fun pv => accepts (fst pv) s) (_values pm))).
      { apply filter_In. split; [exact Hin | exact Hacc]. }
      rewrite Hnone in Hf. destruct Hf. }
  split; intros (Hnone & Hl & Hnew).
  - rewrite register_encoder_unfold.
    pose proof (str_registration_free Encoders s (PlainCallable a) label
                  (set_cache Encoders [] self)
                  (Hmem _ Hnone Hnew) Hl) as (Hok & _).
    split; [exact Hok|].
    exact (registered_string_resolves fuel Encoders s a label
             (set_cache Encoders [] self) Hnone eq_refl Hok).
  - rewrite register_decoder_unfold.
    pose proof (str_registration_free Decoders s (PlainCallable a) label
                  (set_cache Decoders [] self)
                  (Hmem _ Hnone Hnew) Hl) as (Hok & _).
    split; [exact Hok|].
    exact (registered_string_resolves fuel Decoders s a label
             (set_cache Decoders [] self) Hnone eq_refl Hok).
Qed.

End StrRegistration.

(** ** The registry at work

    The theorems above, applied to the default registry with the concrete
    collaborators. *)

#[local] Existing Instance scenario.

(** After [get_encoder("address[2]")] on the default registry, a second
    call returns the array encoder built by the first. *)
Lemma get_encoder_twice_on_default_registry :
  let first := get_encoder 5 "address[2]" registry in
  let built := CoderInstance 51 Static.BaseArrayEncoder "address[2]" in
  res first = Ok built /\
  get_encoder 0 "address[2]" (state first) = Out [] (Ok built) (state first).
Proof.
  cbv zeta. split; [vm_compute; reflexivity|].
  apply (get_encoder_twice 5 0 "address[2]" registry
           (state (get_encoder 5 "address[2]" registry))
           (events (get_encoder 5 "address[2]" registry))).
  vm_compute. reflexivity.
Defined.

(** The decoder registry already knows ["uint256"] as a string lookup, the
    encoder registry does not: [register] adds the encoder and then raises. *)
Lemma register_half_done :
  let self := state (register_decoder (Str "uint256") (PlainCallable 70) None
                       (ABIRegistry_init Static.first_free)) in
  let o := register (Str "uint256") (PlainCallable 71) (PlainCallable 72) None
             self in
  (exists e, res o = Raise e) /\
  _values (_encoders self) = [] /\
  _values (_encoders (state o)) = [(Pred 41 (Equals "uint256"), PlainCallable 71)] /\
  _decoders (state o) = _decoders self.
Proof.
  cbv zeta.
  set (self := state (register_decoder _ _ _ _)).
  assert (H1 : res (register_encoder (Str "uint256") (PlainCallable 71) None self)
               = Ok tt) by (vm_compute; reflexivity).
  set (e := ValueError
              "Matcher <Equals (== 'uint256')> already exists in decoder registry").
  assert (H2 : res (register_decoder (Str "uint256") (PlainCallable 72) None
                      (state (register_encoder (Str "uint256") (PlainCallable 71)
                                None self))) = Raise e)
    by (vm_compute; reflexivity).
  destruct (register_is_not_transactional (Str "uint256") (PlainCallable 71)
              (PlainCallable 72) None self e H1 H2)
    as (Hr & _ & Hd & p & Hp & _ & Hv & _).
  split; [exists e; exact Hr|].
  split; [reflexivity|].
  split; [rewrite Hv, Hp; reflexivity | exact Hd].
Defined.

(** [register_encoder("mytype", coder, label="nickname")] and its decoder
    twin on the default registry: the new entry is labelled ["mytype"], the
    label ["nickname"] is bound to nothing, and the outcome is the one of
    [label=None]. *)
Lemma str_registration_with_a_label :
  let p := Pred (next_address registry) (Equals "mytype") in
  let oe := register_encoder (Str "mytype") (PlainCallable 70)
              (Some "nickname") registry in
  let od := register_decoder (Str "mytype") (PlainCallable 71)
              (Some "nickname") registry in
  (res oe = Ok tt /\
   Dict.get String.eqb "mytype" (_labeled_predicates (_encoders (state oe)))
   = Some p /\
   Dict.get String.eqb "nickname" (_labeled_predicates (_encoders (state oe)))
   = None /\
   Dict.get key_eqb p (_values (_encoders (state oe)))
   = Some (PlainCallable 70) /\
   oe = register_encoder (Str "mytype") (PlainCallable 70) None registry) /\
  (res od = Ok tt /\
   Dict.get String.eqb "mytype" (_labeled_predicates (_decoders (state od)))
   = Some p /\
   Dict.get String.eqb "nickname" (_labeled_predicates (_decoders (state od)))
   = None /\
   Dict.get key_eqb p (_values (_decoders (state od)))
   = Some (PlainCallable 71) /\
   od = register_decoder (Str "mytype") (PlainCallable 71) None registry).
Proof.
  cbv zeta. split.
  - destruct (str_lookup_ignores_label "mytype" (PlainCallable 70)
                (Some "nickname") registry) as (Hsame & _ & He & _).
    cbv beta zeta in He.
    match type of He with
    | if ?c then _ else _ =>
        assert (Hc : c = true) by (vm_compute; reflexivity);
        rewrite Hc in He
    end.
    destruct He as (Hr & Hm).
    split; [exact Hr|]. rewrite Hm. cbn [_values _labeled_predicates].
    split; [vm_compute; reflexivity|].
    split; [vm_compute; reflexivity|].
    split; [vm_compute; reflexivity | exact Hsame].
  - destruct (str_lookup_ignores_label "mytype" (PlainCallable 71)
                (Some "nickname") registry) as (_ & Hsame & _ & Hd).
    cbv beta zeta in Hd.
    match type of Hd with
    | if ?c then _ else _ =>
        assert (Hc : c = true) by (vm_compute; reflexivity);
        rewrite Hc in Hd
    end.
    destruct Hd as (Hr & Hm).
    split; [exact Hr|]. rewrite Hm. cbn [_values _labeled_predicates].
    split; [vm_compute; reflexivity|].
    split; [vm_compute; reflexivity|].
    split; [vm_compute; reflexivity | exact Hsame].
Defined.

(** The default registry resolves ["uint256"] through the rule labelled
    ["uint"]; it stores no [Equals("uint256")] and binds no label
    ["uint256"]. Registering the string on the encoder side, on the decoder
    side, or on both returns, and unregistering it gives back the default
    mappings. The string ["uint"] is a label already: registering it does
    not return. *)
Lemma str_round_trip_on_default_registry :
  (let o1 := register_encoder (Str "uint256") (PlainCallable 70) None
               registry in
   let o2 := unregister_encoder (Str "uint256") (state o1) in
   res o1 = Ok tt /\ res o2 = Ok tt /\
   _encoders (state o2) = _encoders registry) /\
  (let o1 := register_decoder (Str "uint256") (PlainCallable 71) None
               registry in
   let o2 := unregister_decoder (Str "uint256") (state o1) in
   res o1 = Ok tt /\ res o2 = Ok tt /\
   _decoders (state o2) = _decoders registry) /\
  (let o1 := register (Str "uint256") (PlainCallable 70) (PlainCallable 71)
               None registry in
   let o2 := unregister_encoder (Str "uint256") (state o1) in
   let o3 := unregister_decoder (Str "uint256") (state o1) in
   res o1 = Ok tt /\
   Dict.get String.eqb "uint256" (_labeled_predicates (_encoders (state o1)))
   = Some (Pred (next_address registry) (Equals "uint256")) /\
   Dict.get String.eqb "uint256" (_labeled_predicates (_decoders (state o1)))
   = Some (Pred (S (next_address registry)) (Equals "uint256")) /\
   res o2 = Ok tt /\ _encoders (state o2) = _encoders registry /\
   res o3 = Ok tt /\ _decoders (state o3) = _decoders registry) /\
  res (register_encoder (Str "uint") (PlainCallable 70) None registry)
  <> Ok tt.
Proof.
  cbv zeta.
  destruct (str_registration_round_trip "uint256" (PlainCallable 70)
              (PlainCallable 71) registry) as (He & Hd & Hj & _).
  destruct (str_registration_round_trip "uint" (PlainCallable 70)
              (PlainCallable 71) registry) as (_ & _ & _ & Hi & _).
  cbv beta zeta in He, Hd, Hj, Hi.
  split; [|split; [|split]].
  - destruct He as (H1 & _ & _ & H2 & H3 & _);
      [split; vm_compute; reflexivity|].
    auto.
  - destruct Hd as (H1 & _ & _ & H2 & H3 & _);
      [split; vm_compute; reflexivity|].
    auto.
  - destruct Hj as (H1 & _ & H2 & _ & H3 & H4 & H5 & _ & H6 & H7 & _);
      [split; vm_compute; reflexivity | split; vm_compute; reflexivity |].
    repeat split; assumption.
  - intros H. apply Hi in H. destruct H as (_ & H). vm_compute in H.
    discriminate.
Defined.

(** C6, counterexample: the default registry binds the label ["uint"] to
    the [BaseEquals('uint')] rule of the bootstrap.
    [register_encoder("uint", coder)] raises a [ValueError] and stores
    nothing: the encoder mapping is the default one, the label ["uint"] is
    still bound to the bootstrap rule and no [Equals('uint')] object is
    among the stored predicates. [unregister_encoder("uint")] then returns
    all the same, and what it removes is the bootstrap rule. *)
Lemma str_registration_of_taken_label :
  let rule := Pred 40 (BaseEquals "uint" None) in
  let o1 := register_encoder (Str "uint") (PlainCallable 70) None registry in
  let o2 := unregister_encoder (Str "uint") (state o1) in
  (exists msg, res o1 = Raise (ValueError msg)) /\
  _encoders (state o1) = _encoders registry /\
  Dict.get String.eqb "uint" (_labeled_predicates (_encoders (state o1)))
  = Some rule /\
  Dict.mem key_eqb (Pred (next_address registry) (Equals "uint"))
    (_values (_encoders (state o1))) = false /\
  res o2 = Ok tt /\
  Dict.get key_eqb rule (_values (_encoders registry))
  = Some (CoderClass Static.UnsignedIntegerEncoder) /\
  Dict.mem key_eqb rule (_values (_encoders (state o2))) = false /\
  Dict.mem String.eqb "uint" (_labeled_predicates (_encoders (state o2)))
  = false /\
  _encoders (state o2) <> _encoders registry.
Proof.
  cbv zeta.
  split; [eexists; vm_compute; reflexivity|].
  split; [vm_compute; reflexivity|].
  split; [vm_compute; reflexivity|].
  split; [vm_compute; reflexivity|].
  split; [vm_compute; reflexivity|].
  split; [vm_compute; reflexivity|].
  split; [vm_compute; reflexivity|].
  split; [vm_compute; reflexivity|].
  intros H.
  apply (f_equal (fun pm => Dict.mem String.eqb "uint" (_labeled_predicates pm)))
    in H.
  vm_compute in H. discriminate.
Defined.

(** C3, counterexample: ["uint256"] has been resolved on the default
    registry and its encoder is cached. Registering a second
    [BaseEquals('uint')] raises and leaves the encoder mapping as it was,
    yet the cache is empty afterwards: the next [get_encoder("uint256")]
    evaluates the predicates again and returns a newly built encoder, not
    the cached one. *)
Lemma failed_registration_drops_cache :
  let s0 := state (get_encoder 5 "uint256" registry) in
  let cached := CoderInstance 50 Static.UnsignedIntegerEncoder "uint256" in
  let duplicate := Callable (Pred 60 (BaseEquals "uint" None)) in
  let o1 := register_encoder duplicate (PlainCallable 70) None s0 in
  let o2 := get_encoder 5 "uint256" (state o1) in
  Dict.get String.eqb "uint256" (get_encoder_cache s0) = Some cached /\
  (exists msg, res o1 = Raise (ValueError msg)) /\
  _encoders (state o1) = _encoders s0 /\
  get_encoder_cache (state o1) = [] /\
  o2 <> Out [] (Ok cached) (state o1) /\
  res o2 = Ok (CoderInstance 51 Static.UnsignedIntegerEncoder "uint256") /\
  In (EvCall 40 "uint256") (events o2).
Proof.
  cbv zeta.
  split; [vm_compute; reflexivity|].
  split; [eexists; vm_compute; reflexivity|].
  split; [vm_compute; reflexivity|].
  split; [vm_compute; reflexivity|].
  split; [intros H; apply (f_equal (@res _ _)) in H; vm_compute in H;
          discriminate|].
  split; [vm_compute; reflexivity|].
  vm_compute. left. reflexivity.
Qed.

(** The resolutions of the default registry on a few type strings. *)
Example resolve_uint256 :
  res (find "uint256" (_encoders registry)) =
  Ok (CoderClass Static.UnsignedIntegerEncoder).
Proof. vm_compute. reflexivity. Qed.

Example resolve_bytes32_and_bytes :
  res (find "bytes32" (_decoders registry)) = Ok (CoderClass Static.BytesDecoder) /\
  res (find "bytes" (_decoders registry)) =
  Ok (CoderClass Static.ByteStringDecoder).
Proof. split; vm_compute; reflexivity. Qed.

Example resolve_tuple :
  res (get_encoder 5 "(uint256,bool)" registry) =
  Ok (CoderInstance 52 Static.TupleEncoder "(uint256,bool)").
Proof. vm_compute. reflexivity. Qed.

Example resolve_notatype :
  res (get_encoder 5 "notatype" registry) = Raise (ParseError "notatype").
Proof. vm_compute. reflexivity. Qed.

Example duplicate_uint_is_refused :
  let o := register_encoder (Callable (Pred 60 (BaseEquals "uint" None)))
             (PlainCallable 70) (Some "uint2") registry in
  res o =
  Raise (ValueError
           "Matcher <BaseEquals (base == 'uint')> already exists in encoder registry").
Proof. vm_compute. reflexivity. Qed.

(** ** The further properties at work *)

Lemma one_labelled_entry_well_formed (name l : string) (p : Predicate)
    (v : pyobject) :
  well_formed (Mapping name [(p, v)] [(l, p)]).
Proof.
  split; simpl.
  - auto.
  - auto.
  - intros l' q [H|[]]. inversion H; subst. exists v. now left.
  - constructor; [intros [] | constructor].
Qed.

(** The mapping that the removal of an equal [BaseEquals('uint')] object
    leaves behind still binds ["uint"]; removing by that label fails after
    the label is gone. *)
Lemma remove_by_label_of_dangling_label :
  let stored := Pred 40 (BaseEquals "uint" None) in
  let dangling := Mapping "encoder registry" [] [("uint", stored)] in
  remove_by_label "uint" dangling =
  Out [] (Raise (KeyErrorRaw (PredKey stored)))
      (Mapping "encoder registry" [] []).
Proof.
  cbv zeta.
  destruct (remove_by_label_failures "uint"
              (Mapping "encoder registry" []
                 [("uint", Pred 40 (BaseEquals "uint" None))])) as (_ & H).
  destruct (H (Pred 40 (BaseEquals "uint" None)) eq_refl eq_refl)
    as (ls & Hd & Hr).
  inversion Hd; subst ls. exact Hr.
Defined.

Lemma remove_by_equality_of_unknown_predicate :
  let self := Mapping "encoder registry"
                [(Pred 40 (BaseEquals "uint" None), CoderClass 10)]
                [("uint", Pred 40 (BaseEquals "uint" None))] in
  remove_by_equality (Pred 60 (Equals "uint256")) self =
  Out [] (Raise (KeyError
                   "Matcher <Equals (== 'uint256')> not found in encoder registry"))
      self.
Proof.
  cbv zeta.
  exact (remove_by_equality_missing (Pred 60 (Equals "uint256"))
           (Mapping "encoder registry"
              [(Pred 40 (BaseEquals "uint" None), CoderClass 10)]
              [("uint", Pred 40 (BaseEquals "uint" None))]) eq_refl).
Defined.

Lemma first_add_is_well_formed :
  well_formed
    (state (add (Pred 40 (BaseEquals "uint" None)) (CoderClass 10) (Some "uint")
              (PredicateMapping_init "encoder registry"))).
Proof.
  apply add_keeps_well_formed, well_formed_init.
Defined.

Lemma remove_by_label_of_only_entry :
  let p := Pred 40 (BaseEquals "uint" None) in
  let self := Mapping "encoder registry" [(p, CoderClass 10)] [("uint", p)] in
  let o := remove_by_label "uint" self in
  well_formed (state o) /\ res o = Ok tt.
Proof.
  cbv zeta.
  destruct (remove_by_label_well_formed "uint" _
              (one_labelled_entry_well_formed "encoder registry" "uint"
                 (Pred 40 (BaseEquals "uint" None)) (CoderClass 10)))
    as (Hwf & Hr).
  split; [exact Hwf | exact (proj1 Hr)].
Defined.

Lemma remove_by_equality_of_only_entry :
  let p := Pred 40 (BaseEquals "uint" None) in
  let self := Mapping "encoder registry" [(p, CoderClass 10)] [("uint", p)] in
  let o := remove_by_equality p self in
  res o = Ok tt /\ _labeled_predicates (state o) = [].
Proof.
  cbv zeta.
  destruct (remove_by_equality_stored (Pred 40 (BaseEquals "uint" None))
              (CoderClass 10) _
              (one_labelled_entry_well_formed "encoder registry" "uint"
                 (Pred 40 (BaseEquals "uint" None)) (CoderClass 10))
              (or_introl eq_refl)) as (Hr & _).
  split; [exact Hr | reflexivity].
Defined.

Lemma remove_by_label_or_object_of_only_entry :
  let p := Pred 40 (BaseEquals "uint" None) in
  let self := Mapping "encoder registry" [(p, CoderClass 10)] [("uint", p)] in
  remove scenario_repr_default (Str "uint") self =
  remove scenario_repr_default (Callable p) self.
Proof.
  cbv zeta.
  exact (proj1 (remove_by_label_or_object scenario_repr_default "uint"
                  (Pred 40 (BaseEquals "uint" None)) _
                  (one_labelled_entry_well_formed "encoder registry" "uint"
                     (Pred 40 (BaseEquals "uint" None)) (CoderClass 10))
                  eq_refl)).
Defined.

(** Registering ["uint256"] by string on top of the default rules does not
    override the [uint] rule: the string becomes ambiguous. *)
Lemma string_rule_on_default_registry_is_ambiguous :
  let p := Pred 60 (Equals "uint256") in
  let o := add p (PlainCallable 70) (Some "uint256") (_encoders registry) in
  res o = Ok tt /\
  res (find "uint256" (state o)) =
  Raise (ValueError
           (multiple_matching_entries "uint256" "encoder registry"
              [Pred 40 (BaseEquals "uint" None); p])).
Proof.
  cbv zeta.
  assert (H : res (add (Pred 60 (Equals "uint256")) (PlainCallable 70)
                     (Some "uint256") (_encoders registry)) = Ok tt)
    by (vm_compute; reflexivity).
  split; [exact H|].
  exact (add_never_overrides (Pred 60 (Equals "uint256")) (PlainCallable 70)
           (Some "uint256") (_encoders registry) "uint256" H).
Defined.

Lemma notatype_changes_nothing :
  let o := get_encoder 1 "notatype" registry in
  state o = registry /\ res o = Raise (ParseError "notatype").
Proof.
  cbv zeta.
  destruct (failed_lookup_changes_nothing 0 "notatype" registry) as (H & _).
  destruct (H (ValueError (no_matching_entries "notatype" "encoder registry")))
    as (Hs & _ & Hr); [reflexivity | vm_compute; reflexivity |].
  split; [exact Hs | exact (Hr eq_refl)].
Defined.

(** ["mytype"] on the default registry: no rule accepts it, the label is
    not bound, and every stored predicate is an older object. *)
Lemma new_string_rule_is_resolved :
  let o1 := register_encoder (Str "mytype") (PlainCallable 70)
              (Some "nickname") registry in
  let o := get_encoder 1 "mytype" (state o1) in
  res o1 = Ok tt /\
  res o = Ok (PlainCallable 70) /\
  get_encoder_cache (state o) = [("mytype", PlainCallable 70)].
Proof.
  cbv zeta.
  destruct (registered_string_is_resolved 0 "mytype" 70 (Some "nickname")
              registry) as (He & _).
  cbv beta zeta in He.
  destruct He as (H1 & H2 & H3 & _).
  - split; [vm_compute; reflexivity|]. split; [vm_compute; reflexivity|].
    intros q v Hin.
    assert (F : forallb
                  (fun pv => negb (Nat.eqb (id (fst pv)) (next_address registry)))
                  (_values (_encoders registry)) = true)
      by (vm_compute; reflexivity).
    rewrite forallb_forall in F. specialize (F _ Hin). cbn [fst] in F.
    apply negb_true_iff, Nat.eqb_neq in F. exact F.
  - auto.
Defined.

Lemma joint_round_trip_on_default_registry :
  let o1 := register (Str "mytype") (PlainCallable 70) (PlainCallable 71) None
              registry in
  let o := unregister "mytype" (state o1) in
  res o1 = Ok tt /\ res o = Ok tt /\
  _encoders (state o) = _encoders registry /\
  _decoders (state o) = _decoders registry.
Proof.
  cbv zeta.
  assert (H : res (register (Str "mytype") (PlainCallable 70) (PlainCallable 71)
                     None registry) = Ok tt) by (vm_compute; reflexivity).
  destruct (register_unregister_round_trip (Str "mytype") (PlainCallable 70)
              (PlainCallable 71) None "mytype" registry eq_refl H)
    as (Hr & He & Hd & _).
  auto.
Defined.

(** ["mytype"] is registered on the encoder side only: [unregister] removes
    the encoder rule and then raises for the decoder side. *)
Lemma unregister_half_done :
  let self := state (register_encoder (Str "mytype") (PlainCallable 70) None
                       registry) in
  let o := unregister "mytype" self in
  res o = Raise (KeyError "Label 'mytype' not found in decoder registry") /\
  _encoders (state o) = _encoders registry.
Proof.
  cbv zeta.
  set (self := state (register_encoder _ _ _ _)).
  destruct (unregister_is_not_transactional "mytype" self) as (_ & H).
  destruct (H (KeyError "Label 'mytype' not found in decoder registry"))
    as (Hr & He); [vm_compute; reflexivity | vm_compute; reflexivity |].
  split; [exact Hr|]. rewrite He. vm_compute. reflexivity.
Defined.

Lemma get_decoder_twice_on_default_registry :
  let first := get_decoder 5 "bytes32" registry in
  let built := CoderInstance 50 Static.BytesDecoder "bytes32" in
  res first = Ok built /\
  get_decoder 0 "bytes32" (state first) = Out [] (Ok built) (state first).
Proof.
  cbv zeta. split; [vm_compute; reflexivity|].
  apply (get_decoder_twice 5 0 "bytes32" registry
           (state (get_decoder 5 "bytes32" registry))
           (events (get_decoder 5 "bytes32" registry))).
  vm_compute. reflexivity.
Defined.

Lemma default_encoders_well_formed : well_formed (_encoders registry).
Proof.
  split.
  - vm_compute. repeat split; repeat constructor.
  - vm_compute. repeat split; repeat constructor.
  - intros l p H.
    assert (Hv : exists v, In (p, v) (_values (_encoders registry))).
    { vm_compute in H.
      repeat (destruct H as [H|H];
              [inversion H; subst; eexists; vm_compute; tauto|]).
      contradiction. }
    exact Hv.
  - vm_compute. repeat constructor; simpl; intuition discriminate.
Qed.

(** Once the [uint] rule is unregistered, ["uint256"] no longer resolves. *)
Lemma unregistered_uint_does_not_leak :
  let o1 := unregister_encoder (Str "uint") registry in
  let o := get_encoder 1 "uint256" (state o1) in
  res o1 = Ok tt /\
  res o = Raise (ValueError
                   "No matching entries for 'uint256' in encoder registry") /\
  state o = state o1.
Proof.
  cbv zeta.
  destruct (unregistered_rule_does_not_leak 0 "uint" "uint256"
              (Pred 40 (BaseEquals "uint" None))
              (CoderClass Static.UnsignedIntegerEncoder) registry) as (H & _).
  exact (H default_encoders_well_formed eq_refl
           ltac:(vm_compute; reflexivity)).
Defined.

Lemma callable_round_trip_on_default_registry :
  let p := Pred 60 (Equals "mytype") in
  let o1 := register_encoder (Callable p) (PlainCallable 70) (Some "mine")
              registry in
  let o2 := unregister_encoder (Callable p) (state o1) in
  res o1 = Ok tt /\ res o2 = Ok tt /\ _encoders (state o2) = _encoders registry.
Proof.
  cbv zeta.
  assert (H : res (register_encoder (Callable (Pred 60 (Equals "mytype")))
                     (PlainCallable 70) (Some "mine") registry) = Ok tt)
    by (vm_compute; reflexivity).
  destruct (callable_registration_round_trip (Pred 60 (Equals "mytype"))
              (PlainCallable 70) (PlainCallable 71) (Some "mine") registry)
    as (He & _).
  destruct (He default_encoders_well_formed H) as (Hr & Hm & _).
  auto.
Defined.
